(** * Polaris backend: the multi-waypoint route pipeline of [main.py]

    A shallow embedding of [extract_waypoints], [geocode_address],
    [find_nearest_place], [get_place_details],
    [get_directions_with_waypoints] and [process_user_prompt].

    Python values that come from the language model are kept dynamic
    (type [json]): the code reads them with [.get], [wp["type"]] and
    truthiness tests, and what it does on a value of the wrong shape is part
    of the model (it raises).  The replies of the Google services are typed
    records following the fields the code reads.  The external world (language
    model, HTTP services) is a record of oracles whose answers may depend on
    every request made so far; each request is appended to a trace.  The
    waypoint dictionaries that [process_user_prompt] builds live in a store
    and are handled through references, since the round trip step appends an
    object that is already in the list. *)

From Stdlib Require Import String Ascii List ZArith Bool Arith Lia PrimFloat.
Import ListNotations.
Open Scope string_scope.
Open Scope list_scope.

Set Implicit Arguments.
Set Warnings "-register-all".

(** ** Python values *)

(** A Python number as [json.loads] produces it: [int] or [float]. *)
Inductive pynum : Type :=
| PInt (z : Z)
| PFloat (f : float).

(** The value of [json.loads]: [None], [bool], number, [str], [list], [dict].
    A [dict] is kept as its items; [dict_get] reads the first binding of a
    key, so every list of items denotes a dict. *)
Inductive json : Type :=
| JNull
| JBool (b : bool)
| JNum (n : pynum)
| JStr (s : string)
| JArr (l : list json)
| JObj (m : list (string * json)).

Fixpoint dict_get (m : list (string * json)) (k : string) : option json :=
  match m with
  | [] => None
  | (k', v) :: m' => if String.eqb k' k then Some v else dict_get m' k
  end.

(** [bool(n)] for a number: zero (of either sign) is false, NaN is true. *)
Definition pynum_truthy (n : pynum) : bool :=
  match n with
  | PInt z => negb (Z.eqb z 0)
  | PFloat f => negb (PrimFloat.eqb f PrimFloat.zero)
  end.

(** Python truthiness, as used by [if not waypoints] and [if round_trip]. *)
Definition truthy (v : json) : bool :=
  match v with
  | JNull => false
  | JBool b => b
  | JNum n => pynum_truthy n
  | JStr s => negb (String.eqb s "")
  | JArr l => match l with [] => false | _ => true end
  | JObj m => match m with [] => false | _ => true end
  end.

(** [v == "literal"]: only a [str] equals a string literal. *)
Definition eq_str (v : json) (lit : string) : bool :=
  match v with
  | JStr s => String.eqb s lit
  | _ => false
  end.

(** ** Exceptions and results *)

Inductive exn : Type :=
| KeyError (key : string)
| TypeError
| AttributeError
| IndexError
| JSONDecodeError
| UnicodeEncodeError
| RequestException.

Inductive result (A : Type) : Type :=
| Ok (a : A)
| Raise (e : exn).
Arguments Ok {A} a.
Arguments Raise {A} e.

(** ** Replies of the external services *)

(** [(lat, lng)] *)
Definition coord : Type := pynum * pynum.

(** Geocoding reply: [status] and, for every result,
    [geometry.location] as [(lat, lng)]. *)
Record GeocodeReply : Type := {
  geo_status : string;
  geo_results : list coord
}.

(** One result of the nearby search; [vicinity] and [place_id] are read with
    [.get] and may be missing. *)
Record Place : Type := {
  place_location : coord;
  place_name : string;
  place_vicinity : option string;
  place_id : option string
}.

Record NearbyReply : Type := {
  nb_status : string;
  nb_results : list Place
}.

(** [result] of the details reply; [opening_hours], its [weekday_text] and
    [photos] are read with [.get]; a photo is its [photo_reference]. *)
Record DetailsResult : Type := {
  opening_hours : option (option (list string));
  photos : option (list string)
}.

Record DetailsReply : Type := {
  det_status : string;
  det_result : DetailsResult
}.

(** A step of a leg: [html_instructions] and [distance.text]. *)
Record Step : Type := {
  step_html_instructions : string;
  step_distance_text : string
}.

(** A leg of a route: [distance.text], [duration.text] and [steps]. *)
Record Leg : Type := {
  leg_distance_text : string;
  leg_duration_text : string;
  leg_steps : list Step
}.

(** A route: [overview_polyline.points] and [legs]. *)
Record Route : Type := {
  route_overview_points : string;
  route_legs : list Leg
}.

Record DirectionsReply : Type := {
  dir_status : string;
  routes : list Route
}.

(** ** Requests and the external world *)

(** One outbound request, with the parameters the code puts in it.  The
    coordinates of a directions request are kept as values; the code formats
    them into the [origin], [destination] and [waypoints] strings. *)
Inductive request : Type :=
| ChatReq (user_prompt : string)
| GeocodeReq (address : json)
| NearbyReq (location : coord) (keyword : json)
| DetailsReq (id : string)
| DirectionsReq (origin destination : coord) (waypoints : option (list coord)).

(** The world outside the process.  Every oracle sees the requests made so
    far, so two equal requests need not get equal answers.  [json_loads] and
    [py_str] are the Python library functions [json.loads] and [str] (the
    latter is only consulted on values that are not strings).  [py_print] is
    [print] on a value: it raises when the text of the value cannot be
    written to the standard output (a text with a lone surrogate raises
    [UnicodeEncodeError]). *)
Record World : Type := {
  chat_completion : list request -> string -> result (option string);
  json_loads : string -> result json;
  py_str : json -> string;
  py_print : json -> result unit;
  GOOGLE_MAPS_API_KEY : string;
  get_geocode : list request -> json -> result GeocodeReply;
  get_nearby : list request -> coord -> json -> result NearbyReply;
  get_details : list request -> string -> result DetailsReply;
  get_directions : list request -> coord -> coord -> option (list coord) ->
                   result DirectionsReply
}.

(** ** The values the pipeline builds *)

(** A waypoint dictionary of [detailed_waypoints].  For an address waypoint
    [name] and [address] are the waypoint's value as the language model gave
    it, whatever its type. *)
Record WaypointDetail : Type := {
  wd_name : json;
  wd_address : json;
  wd_coordinates : coord;
  wd_type : string;
  wd_hours : list string;
  wd_photos : list string
}.

(** An entry of [legs_metadata]. *)
Record LegInfo : Type := {
  distance : string;
  duration : string
}.

(** The dictionary [get_place_details] returns. *)
Record PlaceDetails : Type := {
  hours : list string;
  photo_urls : list string
}.

(** A reference to a waypoint dictionary: its index in the store. *)
Definition ref : Type := nat.

(** The dictionary [process_user_prompt] returns.  [waypoints] holds
    references; [legs] is [None] when the dictionary has no such key. *)
Record Outcome : Type := {
  polyline : option string;
  instructions : list string;
  waypoints : list ref;
  round_trip : json;
  notes : json;
  legs : option (list LegInfo)
}.

(** ** State and exceptions *)

Record state : Type := {
  trace : list request;
  store : list WaypointDetail
}.

Definition M (A : Type) : Type := state -> result A * state.

Definition ret {A} (a : A) : M A := fun s => (Ok a, s).

Definition raise {A} (e : exn) : M A := fun s => (Raise e, s).

Definition bind {A B} (m : M A) (k : A -> M B) : M B :=
  fun s =>
    match m s with
    | (Ok a, s') => k a s'
    | (Raise e, s') => (Raise e, s')
    end.

(** [try: m except Exception: h] *)
Definition try_except {A} (m : M A) (h : exn -> M A) : M A :=
  fun s =>
    match m s with
    | (Ok a, s') => (Ok a, s')
    | (Raise e, s') => h e s'
    end.

Definition lift {A} (r : result A) : M A := fun s => (r, s).

Notation "x <- m ;; k" := (bind m (fun x => k))
  (at level 61, m at next level, right associativity).
Notation "' p <- m ;; k" := (bind m (fun x => let p := x in k))
  (at level 61, p pattern, m at next level, right associativity).

(** Issue a request: the oracle answers from the requests made so far, and
    the request joins the trace whether or not the call raises. *)
Definition send {A} (r : request) (answer : list request -> result A) : M A :=
  fun s => (answer (trace s), {| trace := trace s ++ [r]; store := store s |}).

(** The state after one more request. *)
Definition log (s : state) (r : request) : state :=
  {| trace := trace s ++ [r]; store := store s |}.

(** Create a waypoint dictionary and return the reference to it. *)
Definition alloc (d : WaypointDetail) : M ref :=
  fun s => (Ok (length (store s)),
            {| trace := trace s; store := store s ++ [d] |}).

(** ** Python operations on dynamic values *)

(** [d.get(k, default)]; only a [dict] has [.get]. *)
Definition py_get (d : json) (k : string) (default : json) : M json :=
  match d with
  | JObj m => ret (match dict_get m k with Some v => v | None => default end)
  | _ => raise AttributeError
  end.

(** [d[k]] for a string key [k]. *)
Definition py_getitem (d : json) (k : string) : M json :=
  match d with
  | JObj m =>
      match dict_get m k with
      | Some v => ret v
      | None => raise (KeyError k)
      end
  | _ => raise TypeError
  end.

Fixpoint chars (s : string) : list json :=
  match s with
  | EmptyString => []
  | String c s' => JStr (String c EmptyString) :: chars s'
  end.

(** The keys of a dict, each once, in the order of their first binding. *)
Fixpoint dict_keys (m : list (string * json)) (seen : list string) : list json :=
  match m with
  | [] => []
  | (k, _) :: m' =>
      if existsb (String.eqb k) seen then dict_keys m' seen
      else JStr k :: dict_keys m' (k :: seen)
  end.

(** The items [enumerate(v)] walks through. *)
Definition py_iter (v : json) : M (list json) :=
  match v with
  | JArr l => ret l
  | JStr s => ret (chars s)
  | JObj m => ret (dict_keys m [])
  | _ => raise TypeError
  end.

(** [l[i]] on a list. *)
Definition py_index {A} (l : list A) (i : nat) : result A :=
  match nth_error l i with
  | Some x => Ok x
  | None => Raise IndexError
  end.

(** [l[-1]] on a list. *)
Definition py_index_last {A} (l : list A) : result A :=
  match l with
  | [] => Raise IndexError
  | x :: l' => Ok (last l' x)
  end.

(** [l[1:-1]] *)
Definition interior {A} (l : list A) : list A := removelast (tl l).

(** ** [re.sub('<[^<]+?>', '', text)] *)

(** The text behind "<" and one inner character: [tag_rest] counts the
    characters up to and including the first ">" and fails when it meets a
    "<" or the end of the text first (the lazy [+?] stops at the first ">",
    the class [[^<]] refuses "<"). *)
Fixpoint tag_rest (s : string) : option nat :=
  match s with
  | EmptyString => None
  | String c s' =>
      if Ascii.eqb c ">" then Some 1
      else if Ascii.eqb c "<" then None
      else option_map S (tag_rest s')
  end.

(** The length of the match of the pattern at the start of [s], if any: a
    "<", one character that is not "<" (it may be ">"), then [tag_rest]. *)
Definition match_tag (s : string) : option nat :=
  match s with
  | String c0 (String c1 s') =>
      if Ascii.eqb c0 "<" && negb (Ascii.eqb c1 "<")
      then option_map (fun n => 2 + n) (tag_rest s')
      else None
  | _ => None
  end.

(** Left to right, every match found is dropped ([skip] counts the characters
    of the current match still to drop) and the search resumes behind it. *)
Fixpoint sub_tags (skip : nat) (s : string) : string :=
  match s with
  | EmptyString => EmptyString
  | String c s' =>
      match skip with
      | S k => sub_tags k s'
      | O =>
          match match_tag s with
          | Some n => sub_tags (n - 1) s'
          | None => String c (sub_tags 0 s')
          end
      end
  end.

Definition re_sub_tags (text : string) : string := sub_tags 0 text.

(** ** The program *)

Section Pipeline.

Variable W : World.

(** [f"{v}"] *)
Definition format (v : json) : string :=
  match v with
  | JStr s => s
  | _ => py_str W v
  end.

Definition default_parsed : json :=
  JObj [("waypoints", JArr []);
        ("round_trip", JBool false);
        ("extra_notes", JStr "Error or invalid JSON from LLM.")].

(** [json.loads(raw_json)]; the content of a reply may be [None]. *)
Definition loads (raw_json : option string) : result json :=
  match raw_json with
  | Some text => json_loads W text
  | None => Raise TypeError
  end.

(** The [try] block holds the call, [json.loads] and [print(parsed)]: an
    exception of any of the three is caught.  The handler prints a fixed
    text and the exception, which is taken to succeed, and returns the
    default structure. *)
Definition extract_waypoints (user_prompt : string) : M json :=
  try_except
    (raw_json <- send (ChatReq user_prompt)
                      (fun tr => chat_completion W tr user_prompt);;
     parsed <- lift (loads raw_json);;
     _ <- lift (py_print W parsed);;
     ret parsed)
    (fun _ => ret default_parsed).

(** [requests.get(url, params).json()] is the oracle's answer; [Raise]
    stands for any exception of the transport or of the decoding. *)
Definition geocode_address (address : json) : M (option coord) :=
  resp <- send (GeocodeReq address) (fun tr => get_geocode W tr address);;
  if String.eqb (geo_status resp) "OK" then
    location <- lift (py_index (geo_results resp) 0);;
    ret (Some location)
  else ret None.

Definition find_nearest_place (origin_lat origin_lng : pynum) (place_type : json)
  : M (option (pynum * pynum * string * string * string)) :=
  resp <- send (NearbyReq (origin_lat, origin_lng) place_type)
               (fun tr => get_nearby W tr (origin_lat, origin_lng) place_type);;
  if String.eqb (nb_status resp) "OK" && Nat.ltb 0 (length (nb_results resp)) then
    place <- lift (py_index (nb_results resp) 0);;
    let lat := fst (place_location place) in
    let lng := snd (place_location place) in
    let name := place_name place in
    let address := match place_vicinity place with Some a => a | None => "" end in
    let place_id := match place_id place with Some i => i | None => "" end in
    ret (Some (lat, lng, name, address, place_id))
  else ret None.

Definition photo_url (photo_reference : string) : string :=
  ("https://maps.googleapis.com/maps/api/place/photo?maxwidth=400&photo_reference="
   ++ photo_reference ++ "&key=" ++ GOOGLE_MAPS_API_KEY W)%string.

Definition no_details : PlaceDetails := {| hours := []; photo_urls := [] |}.

Definition get_place_details (place_id : string) : M PlaceDetails :=
  resp <- send (DetailsReq place_id) (fun tr => get_details W tr place_id);;
  if String.eqb (det_status resp) "OK" then
    let result := det_result resp in
    let hours :=
      match opening_hours result with
      | Some (Some weekday_text) => weekday_text
      | _ => []
      end in
    let photos := match photos result with Some l => l | None => [] end in
    let photo_refs := map photo_url photos in
    ret {| hours := hours; photo_urls := photo_refs |}
  else ret no_details.

(** The text appended for one step. *)
Definition step_entry (step : Step) : string :=
  (re_sub_tags (step_html_instructions step)
   ++ " (" ++ step_distance_text step ++ ")")%string.

Definition leg_info (leg : Leg) : LegInfo :=
  {| distance := leg_distance_text leg; duration := leg_duration_text leg |}.

(** The two nested [for] loops over [route["legs"]] and [leg["steps"]],
    appending to [instructions] and [legs_metadata]. *)
Definition collect_legs (route_legs : list Leg) : list string * list LegInfo :=
  fold_left
    (fun (acc : list string * list LegInfo) leg =>
       let (instructions, legs_metadata) := acc in
       let legs_metadata := legs_metadata ++ [leg_info leg] in
       let instructions :=
         fold_left (fun ins step => ins ++ [step_entry step])
                   (leg_steps leg) instructions in
       (instructions, legs_metadata))
    route_legs ([], []).

(** [waypoints_param] is the ["|"]-joined text of [waypoint_coords_list[1:-1]]
    when the list has more than two points, else [None]; a joined text of one
    or more points is not empty, so [if waypoints_param] holds exactly when
    it is not [None], and the request carries the stops exactly then. *)
Definition get_directions_with_waypoints (waypoint_coords_list : list coord)
  : M (option string * list string * list LegInfo) :=
  if Nat.ltb (length waypoint_coords_list) 2 then ret (None, [], [])
  else
    origin <- lift (py_index waypoint_coords_list 0);;
    destination <- lift (py_index_last waypoint_coords_list);;
    let waypoints_param :=
      if Nat.ltb 2 (length waypoint_coords_list)
      then Some (interior waypoint_coords_list) else None in
    resp <- send (DirectionsReq origin destination waypoints_param)
                 (fun tr => get_directions W tr origin destination waypoints_param);;
    if String.eqb (dir_status resp) "OK" then
      route <- lift (py_index (routes resp) 0);;
      let overview_poly := route_overview_points route in
      let (instructions, legs_metadata) := collect_legs (route_legs route) in
      ret (Some overview_poly, instructions, legs_metadata)
    else ret (None, [], []).

(** The dictionaries returned on the failure paths: no polyline, no
    instructions, no waypoints, no [legs] key. *)
Definition failure (round_trip : json) (notes : string) : Outcome :=
  {| polyline := None; instructions := []; waypoints := [];
     round_trip := round_trip; notes := JStr notes; legs := None |}.

(** [not overall_poly] *)
Definition falsy_poly (overall_poly : option string) : bool :=
  match overall_poly with
  | None => true
  | Some p => String.eqb p ""
  end.

Definition first_is_place_type : string :=
  "Your first waypoint is a place type, but no origin was provided.".
Definition no_origin : string :=
  "No origin available for place search. Please specify an address first.".
Definition not_enough : string := "Not enough waypoints to create a route.".
Definition directions_failed : string :=
  "Directions request failed. Please try again.".
Definition no_stops : string :=
  "I couldn't parse any valid stops from your request.".

(** Step 2, the loop [for i, wp in enumerate(waypoints)] from position [i]
    on, with the current [coords_list] and [detailed_waypoints].  [inl] is a
    [return] from inside the loop, [inr] the two lists when the loop ends. *)
Fixpoint resolve_loop (round_trip : json) (i : nat) (waypoints : list json)
    (coords_list : list coord) (detailed_waypoints : list ref)
  : M (Outcome + list coord * list ref) :=
  match waypoints with
  | [] => ret (inr (coords_list, detailed_waypoints))
  | wp :: rest =>
      wp_type <- py_getitem wp "type";;
      wp_value <- py_getitem wp "value";;
      if Nat.eqb i 0 && eq_str wp_type "place_type" then
        ret (inl (failure (JBool false) first_is_place_type))
      else if eq_str wp_type "address" then
        loc <- geocode_address wp_value;;
        match loc with
        | None =>
            ret (inl (failure round_trip
                        ("Could not geocode address: " ++ format wp_value)%string))
        | Some loc =>
            place_info <- find_nearest_place (fst loc) (snd loc) wp_value;;
            place_details <-
              match place_info with
              | Some (_, _, _, _, place_id) => get_place_details place_id
              | None => ret no_details
              end;;
            d <- alloc {| wd_name := wp_value;
                          wd_address := wp_value;
                          wd_coordinates := loc;
                          wd_type := "Address";
                          wd_hours := hours place_details;
                          wd_photos := photo_urls place_details |};;
            resolve_loop round_trip (S i) rest
                         (coords_list ++ [loc]) (detailed_waypoints ++ [d])
        end
      else if eq_str wp_type "place_type" then
        match py_index_last coords_list with
        | Raise _ => ret (inl (failure round_trip no_origin))
        | Ok (origin_lat, origin_lng) =>
            place_info <- find_nearest_place origin_lat origin_lng wp_value;;
            match place_info with
            | None =>
                ret (inl (failure round_trip
                            ("Could not find a nearby place for: "
                             ++ format wp_value)%string))
            | Some (lat, lng, name, addr, place_id) =>
                place_details <- get_place_details place_id;;
                d <- alloc {| wd_name := JStr name;
                              wd_address := JStr addr;
                              wd_coordinates := (lat, lng);
                              wd_type := ("Place Type - " ++ format wp_value)%string;
                              wd_hours := hours place_details;
                              wd_photos := photo_urls place_details |};;
                resolve_loop round_trip (S i) rest
                             (coords_list ++ [(lat, lng)])
                             (detailed_waypoints ++ [d])
            end
        end
      else resolve_loop round_trip (S i) rest coords_list detailed_waypoints
  end.

(** Step 3: [if round_trip and len(coords_list) > 0], append
    [coords_list[0]] and [detailed_waypoints[0]]. *)
Definition handle_round_trip (round_trip : json)
    (coords_list : list coord) (detailed_waypoints : list ref)
  : M (list coord * list ref) :=
  if truthy round_trip && Nat.ltb 0 (length coords_list) then
    c0 <- lift (py_index coords_list 0);;
    d0 <- lift (py_index detailed_waypoints 0);;
    ret (coords_list ++ [c0], detailed_waypoints ++ [d0])
  else ret (coords_list, detailed_waypoints).

(** Steps 4 and 5, from the test [len(coords_list) < 2] to the end. *)
Definition request_route (round_trip notes : json)
    (coords_list : list coord) (detailed_waypoints : list ref) : M Outcome :=
  if Nat.ltb (length coords_list) 2 then ret (failure round_trip not_enough)
  else
    r <- get_directions_with_waypoints coords_list;;
    let '(overall_poly, step_instructions, leg_metadata) := r in
    if falsy_poly overall_poly then
      ret {| polyline := None; instructions := [];
             waypoints := detailed_waypoints;
             round_trip := round_trip;
             notes := JStr directions_failed; legs := None |}
    else
      ret {| polyline := overall_poly; instructions := step_instructions;
             waypoints := detailed_waypoints;
             round_trip := round_trip;
             notes := notes; legs := Some leg_metadata |}.

Definition process_user_prompt (user_prompt : string) : M Outcome :=
  parsed <- extract_waypoints user_prompt;;
  waypoints <- py_get parsed "waypoints" (JArr []);;
  round_trip <- py_get parsed "round_trip" (JBool false);;
  notes <- py_get parsed "extra_notes" (JStr "");;
  if negb (truthy waypoints) then ret (failure (JBool false) no_stops)
  else
    items <- py_iter waypoints;;
    r <- resolve_loop round_trip 0 items [] [];;
    match r with
    | inl out => ret out
    | inr (coords_list, detailed_waypoints) =>
        r <- handle_round_trip round_trip coords_list detailed_waypoints;;
        let (coords_list, detailed_waypoints) := r in
        request_route round_trip notes coords_list detailed_waypoints
    end.

End Pipeline.

Arguments failure round_trip notes : simpl never.

(** ** A concrete world, for running the pipeline *)

Module Sample.

Definition utsc : coord := (PFloat 43.5%float, PFloat (-79.25)%float).
Definition cafe_at : coord := (PFloat 43.75%float, PFloat (-79.125)%float).

Definition cafe : Place :=
  {| place_location := cafe_at; place_name := "Corner Cafe";
     place_vicinity := Some "1 Main St"; place_id := Some "pid-1" |}.

Definition leg1 : Leg :=
  {| leg_distance_text := "1.2 km"; leg_duration_text := "4 mins";
     leg_steps :=
       [ {| step_html_instructions := "Head <b>north</b> on <b>Main St</b>";
            step_distance_text := "0.5 km" |};
         {| step_html_instructions := "Turn <b>left</b><div style=x>Toll road</div>";
            step_distance_text := "0.7 km" |} ] |}.

Definition leg2 : Leg :=
  {| leg_distance_text := "1.3 km"; leg_duration_text := "5 mins";
     leg_steps :=
       [ {| step_html_instructions := "Head <b>south</b>";
            step_distance_text := "1.3 km" |} ] |}.

Definition ok_route (points : string) : DirectionsReply :=
  {| dir_status := "OK";
     routes := [ {| route_overview_points := points;
                    route_legs := [leg1; leg2] |} ] |}.

Definition no_route : DirectionsReply :=
  {| dir_status := "ZERO_RESULTS"; routes := [] |}.

(** The language model's reply parses to [parsed] (or the parse raises);
    every address but ["Nonexistent Place"] geocodes to [utsc], every keyword
    finds [cafe], and the directions service answers [directions]. *)
Definition world (parsed : result json) (directions : DirectionsReply) : World :=
  {| chat_completion := fun _ _ => Ok (Some "reply");
     json_loads := fun _ => parsed;
     py_str := fun _ => "?";
     py_print := fun _ => Ok tt;
     GOOGLE_MAPS_API_KEY := "KEY";
     get_geocode := fun _ address =>
       if eq_str address "Nonexistent Place"
       then Ok {| geo_status := "ZERO_RESULTS"; geo_results := [] |}
       else Ok {| geo_status := "OK"; geo_results := [utsc] |};
     get_nearby := fun _ _ _ =>
       Ok {| nb_status := "OK"; nb_results := [cafe] |};
     get_details := fun _ _ =>
       Ok {| det_status := "OK";
             det_result := {| opening_hours := Some (Some ["Monday: 9-5"]);
                              photos := Some ["ref1"] |} |};
     get_directions := fun _ _ _ _ => Ok directions |}.

(** A world whose language model call raises. *)
Definition offline (w : World) : World :=
  {| chat_completion := fun _ _ => Raise RequestException;
     json_loads := json_loads w;
     py_str := py_str w;
     py_print := py_print w;
     GOOGLE_MAPS_API_KEY := GOOGLE_MAPS_API_KEY w;
     get_geocode := get_geocode w;
     get_nearby := get_nearby w;
     get_details := get_details w;
     get_directions := get_directions w |}.

Definition intent (type value : string) : json :=
  JObj [("type", JStr type); ("value", JStr value)].

Definition reply (intents : list json) (round_trip : bool) : json :=
  JObj [("waypoints", JArr intents);
        ("round_trip", JBool round_trip);
        ("extra_notes", JStr "")].

Definition start : state := {| trace := []; store := [] |}.

(** Scenario 4: an address, then the nearest coffee shop, and back. *)
Definition two_stops : list json :=
  [intent "address" "UTSC"; intent "place_type" "coffee shop"].

Definition round_trip_world : World :=
  world (Ok (reply two_stops true)) (ok_route "abc").

(** The state after the extractor's request. *)
Definition asked : state := log start (ChatReq "UTSC, a coffee shop, and back").

(** The state when the loop over [two_stops] has ended. *)
Definition resolved : state :=
  snd (resolve_loop round_trip_world (JBool true) 0 two_stops [] [] asked).

End Sample.

(** ** Notions used in the statements *)

(** The requests of the resolution loop: geocoding, nearby search, details. *)
Definition lookup_req (r : request) : Prop :=
  match r with
  | GeocodeReq _ | NearbyReq _ _ | DetailsReq _ => True
  | ChatReq _ | DirectionsReq _ _ _ => False
  end.

Definition is_directions_req (r : request) : Prop :=
  match r with
  | DirectionsReq _ _ _ => True
  | _ => False
  end.

(** [parsed.get(k, default)] when [parsed] is the dict [m]. *)
Definition get_or (m : list (string * json)) (k : string) (default : json) : json :=
  match dict_get m k with
  | Some v => v
  | None => default
  end.

(** A list with its first element appended again when [round_trip] is true
    (and the list is not empty). *)
Definition close_loop {A} (round_trip : json) (l : list A) : list A :=
  if truthy round_trip then
    match l with
    | x :: _ => l ++ [x]
    | [] => l
    end
  else l.


(** An intent of one of the two kinds of the system prompt. *)
Definition known_kind (wp : json) : bool :=
  match wp with
  | JObj m =>
      match dict_get m "type", dict_get m "value" with
      | Some t, Some _ => eq_str t "address" || eq_str t "place_type"
      | _, _ => false
      end
  | _ => false
  end.

(** An intent of a kind that is neither ["address"] nor ["place_type"]. *)
Definition unknown_kind (wp : json) : bool :=
  match wp with
  | JObj m =>
      match dict_get m "type", dict_get m "value" with
      | Some t, Some _ => negb (eq_str t "address") && negb (eq_str t "place_type")
      | _, _ => false
      end
  | _ => false
  end.

(** The list starts with a ["place_type"] intent. *)
Definition starts_with_place_type (l : list json) : bool :=
  match l with
  | JObj m :: _ =>
      match dict_get m "type", dict_get m "value" with
      | Some t, Some _ => eq_str t "place_type"
      | _, _ => false
      end
  | _ => false
  end.



(** The extractor's [try] block raises ahead of [print]: the call fails,
    the reply has no content, or the content is not JSON. *)
Definition extractor_fails (W : World) (tr : list request) (user_prompt : string) : Prop :=
  match chat_completion W tr user_prompt with
  | Ok raw_json => exists e, loads W raw_json = Raise e
  | Raise _ => True
  end.


(** One turn of the resolution loop, up to the point where it either
    returns ([inl]), goes on to the next intent without a waypoint
    ([inr None]), or has the coordinates and the dictionary it is about to
    append ([inr (Some _)]).  [resolve_loop_cons] below shows that the loop
    is this turn followed by the two [append]s and the rest of the loop. *)
Definition resolve_step (W : World) (round_trip : json) (i : nat) (wp : json)
    (coords_list : list coord) : M (Outcome + option (coord * WaypointDetail)) :=
  wp_type <- py_getitem wp "type";;
  wp_value <- py_getitem wp "value";;
  if Nat.eqb i 0 && eq_str wp_type "place_type" then
    ret (inl (failure (JBool false) first_is_place_type))
  else if eq_str wp_type "address" then
    loc <- geocode_address W wp_value;;
    match loc with
    | None =>
        ret (inl (failure round_trip
                    ("Could not geocode address: " ++ format W wp_value)%string))
    | Some loc =>
        place_info <- find_nearest_place W (fst loc) (snd loc) wp_value;;
        place_details <-
          match place_info with
          | Some (_, _, _, _, place_id) => get_place_details W place_id
          | None => ret no_details
          end;;
        ret (inr (Some (loc,
                        {| wd_name := wp_value;
                           wd_address := wp_value;
                           wd_coordinates := loc;
                           wd_type := "Address";
                           wd_hours := hours place_details;
                           wd_photos := photo_urls place_details |})))
    end
  else if eq_str wp_type "place_type" then
    match py_index_last coords_list with
    | Raise _ => ret (inl (failure round_trip no_origin))
    | Ok (origin_lat, origin_lng) =>
        place_info <- find_nearest_place W origin_lat origin_lng wp_value;;
        match place_info with
        | None =>
            ret (inl (failure round_trip
                        ("Could not find a nearby place for: "
                         ++ format W wp_value)%string))
        | Some (lat, lng, name, addr, place_id) =>
            place_details <- get_place_details W place_id;;
            ret (inr (Some ((lat, lng),
                            {| wd_name := JStr name;
                               wd_address := JStr addr;
                               wd_coordinates := (lat, lng);
                               wd_type := ("Place Type - " ++ format W wp_value)%string;
                               wd_hours := hours place_details;
                               wd_photos := photo_urls place_details |})))
        end
    end
  else ret (inr None).

(** What follows a turn of the loop. *)
Definition resolve_next (W : World) (round_trip : json) (i : nat) (rest : list json)
    (coords_list : list coord) (detailed_waypoints : list ref)
    (r : Outcome + option (coord * WaypointDetail))
  : M (Outcome + list coord * list ref) :=
  match r with
  | inl out => ret (inl out)
  | inr None => resolve_loop W round_trip (S i) rest coords_list detailed_waypoints
  | inr (Some (loc, detail)) =>
      d <- alloc detail;;
      resolve_loop W round_trip (S i) rest
                   (coords_list ++ [loc]) (detailed_waypoints ++ [d])
  end.

(** The character [c] occurs in [s]. *)
Fixpoint occurs (c : ascii) (s : string) : bool :=
  match s with
  | EmptyString => false
  | String c' s' => Ascii.eqb c' c || occurs c s'
  end.

(** The points of a directions request, read back in order: the origin, the
    stops, the destination. *)
Definition request_points (q : request) : list coord :=
  match q with
  | DirectionsReq origin destination stops =>
      origin :: match stops with Some l => l | None => [] end ++ [destination]
  | _ => []
  end.

(** The coordinates of the dictionary a reference points to. *)
Definition coordinates_at (objects : list WaypointDetail) (r : ref) : option coord :=
  option_map wd_coordinates (nth_error objects r).

(** ** More concrete worlds *)

Module Cases.

(** A world with fixed answers of the four services. *)
Definition fixed (parsed : result json) (geo : result GeocodeReply)
    (nearby : result NearbyReply) (directions : result DirectionsReply) : World :=
  {| chat_completion := fun _ _ => Ok (Some "reply");
     json_loads := fun _ => parsed;
     py_str := fun _ => "?";
     py_print := fun _ => Ok tt;
     GOOGLE_MAPS_API_KEY := "KEY";
     get_geocode := fun _ _ => geo;
     get_nearby := fun _ _ _ => nearby;
     get_details := fun _ _ =>
       Ok {| det_status := "OK";
             det_result := {| opening_hours := Some (Some ["Monday: 9-5"]);
                              photos := Some ["ref1"; "ref2"] |} |};
     get_directions := fun _ _ _ _ => directions |}.

Definition found : result GeocodeReply :=
  Ok {| geo_status := "OK"; geo_results := [Sample.utsc] |}.

Definition found_nothing : result GeocodeReply :=
  Ok {| geo_status := "OK"; geo_results := [] |}.

Definition near : result NearbyReply :=
  Ok {| nb_status := "OK"; nb_results := [Sample.cafe] |}.

Definition nothing_near : result NearbyReply :=
  Ok {| nb_status := "ZERO_RESULTS"; nb_results := [] |}.

Definition routed : result DirectionsReply := Ok (Sample.ok_route "abc").

Definition no_routes : result DirectionsReply :=
  Ok {| dir_status := "OK"; routes := [] |}.

Definition asked (user_prompt : string) : state :=
  log Sample.start (ChatReq user_prompt).


End Cases.

(** The outcome of scenario 4 in [Sample.round_trip_world]. *)
Module Scenario.

Definition outcome_4 : Outcome :=
  {| polyline := Some "abc";
     instructions := ["Head north on Main St (0.5 km)";
                      "Turn leftToll road (0.7 km)";
                      "Head south (1.3 km)"];
     waypoints := [0; 1; 0];
     round_trip := JBool true;
     notes := JStr "";
     legs := Some [ {| distance := "1.2 km"; duration := "4 mins" |};
                    {| distance := "1.3 km"; duration := "5 mins" |} ] |}.

End Scenario.

(** The answers of the lookup services do not depend on the requests made
    before. *)
Definition history_free (W : World) : Prop :=
  (forall tr a, get_geocode W tr a = get_geocode W [] a) /\
  (forall tr c k, get_nearby W tr c k = get_nearby W [] c k) /\
  (forall tr i, get_details W tr i = get_details W [] i).

(** * Properties *)

Unset Implicit Arguments.

(** ** The monad *)

Lemma bind_ok {A B} (m : M A) (k : A -> M B) s a s' :
  m s = (Ok a, s') -> bind m k s = k a s'.
Proof. intros H. unfold bind. now rewrite H. Qed.

(** ** The extractor *)

Lemma extract_waypoints_total W user_prompt s :
  exists parsed,
    extract_waypoints W user_prompt s = (Ok parsed, log s (ChatReq user_prompt)).
Proof.
  unfold extract_waypoints, try_except, bind, send, lift, ret, log.
  destruct (chat_completion W (trace s) user_prompt) as [raw|e]; simpl.
  - destruct (loads W raw) as [p|e]; simpl; eauto.
    destruct (py_print W p); simpl; eauto.
  - eauto.
Qed.

Lemma extract_waypoints_failed W user_prompt s :
  extractor_fails W (trace s) user_prompt ->
  extract_waypoints W user_prompt s
  = (Ok default_parsed, log s (ChatReq user_prompt)).
Proof.
  unfold extractor_fails, extract_waypoints, try_except, bind, send, lift, ret, log.
  destruct (chat_completion W (trace s) user_prompt) as [raw|e]; simpl.
  - intros [e He]. now rewrite He.
  - reflexivity.
Qed.

(** ** C1 *)

(** C1. When the first entry of the extractor's waypoint list is a
    ["place_type"] intent, the pipeline returns the outcome with no polyline,
    no instructions, no waypoints, [round_trip] false and the notice that the
    first waypoint is a place type without origin, whatever the other
    intents and the extractor's [round_trip] are; nothing is requested from
    the services. *)
Theorem first_place_type_is_rejected :
  forall W user_prompt s s' m wp rest v,
    extract_waypoints W user_prompt s = (Ok (JObj m), s') ->
    dict_get m "waypoints" = Some (JArr (JObj wp :: rest)) ->
    dict_get wp "type" = Some (JStr "place_type") ->
    dict_get wp "value" = Some v ->
    process_user_prompt W user_prompt s
    = (Ok {| polyline := None; instructions := []; waypoints := [];
             round_trip := JBool false;
             notes := JStr "Your first waypoint is a place type, but no origin was provided.";
             legs := None |},
       s').
Proof.
  intros W user_prompt s s' m wp rest v Hext Hway Htype Hval.
  unfold process_user_prompt.
  rewrite (bind_ok _ _ _ _ _ Hext).
  unfold py_get, bind, ret. rewrite Hway. simpl.
  unfold bind, ret. rewrite Htype, Hval. simpl.
  reflexivity.
Qed.

Lemma first_place_type_is_rejected_witness :
  process_user_prompt
    (Sample.world
       (Ok (Sample.reply [Sample.intent "place_type" "coffee shop";
                          Sample.intent "address" "UTSC"] true))
       (Sample.ok_route "abc"))
    "nearest coffee shop, then UTSC and back" Sample.start
  = (Ok {| polyline := None; instructions := []; waypoints := [];
           round_trip := JBool false;
           notes := JStr "Your first waypoint is a place type, but no origin was provided.";
           legs := None |},
     log Sample.start (ChatReq "nearest coffee shop, then UTSC and back")).
Proof.
  eapply first_place_type_is_rejected with (v := JStr "coffee shop");
    reflexivity.
Defined.

(** ** The services: what a call does to the state *)

Lemma geocode_address_state W a s r s' :
  geocode_address W a s = (r, s') -> s' = log s (GeocodeReq a).
Proof.
  unfold geocode_address, bind, send, lift, ret, log.
  destruct (get_geocode W (trace s) a) as [reply|e]; simpl.
  - destruct (String.eqb (geo_status reply) "OK"); simpl.
    + destruct (py_index (geo_results reply) 0); simpl; congruence.
    + congruence.
  - congruence.
Qed.

Lemma find_nearest_place_state W lat lng k s r s' :
  find_nearest_place W lat lng k s = (r, s') -> s' = log s (NearbyReq (lat, lng) k).
Proof.
  unfold find_nearest_place, bind, send, lift, ret, log.
  destruct (get_nearby W (trace s) (lat, lng) k) as [reply|e]; simpl.
  - destruct (String.eqb (nb_status reply) "OK" && Nat.ltb 0 (length (nb_results reply)));
      simpl.
    + destruct (py_index (nb_results reply) 0); simpl; congruence.
    + congruence.
  - congruence.
Qed.

Lemma get_place_details_state W i s r s' :
  get_place_details W i s = (r, s') -> s' = log s (DetailsReq i).
Proof.
  unfold get_place_details, bind, send, ret, log.
  destruct (get_details W (trace s) i) as [reply|e]; simpl.
  - destruct (String.eqb (det_status reply) "OK"); congruence.
  - congruence.
Qed.

(** ** The resolution loop, turn by turn *)

Lemma resolve_loop_cons W rt i wp rest c d s :
  resolve_loop W rt i (wp :: rest) c d s
  = bind (resolve_step W rt i wp c) (resolve_next W rt i rest c d) s.
Proof.
  cbn [resolve_loop]. unfold resolve_step, resolve_next, bind.
  destruct (py_getitem wp "type" s) as [[wp_type|e] s1]; [|reflexivity].
  destruct (py_getitem wp "value" s1) as [[wp_value|e] s2]; [|reflexivity].
  destruct (Nat.eqb i 0 && eq_str wp_type "place_type"); [reflexivity|].
  destruct (eq_str wp_type "address").
  - destruct (geocode_address W wp_value s2) as [[[loc|]|e] s3]; try reflexivity.
    destruct (find_nearest_place W (fst loc) (snd loc) wp_value s3)
      as [[info|e] s4]; [|reflexivity].
    destruct (match info with
              | Some (_, _, _, _, place_id) => get_place_details W place_id
              | None => ret no_details
              end s4) as [[det|e] s5]; reflexivity.
  - destruct (eq_str wp_type "place_type"); [|reflexivity].
    destruct (py_index_last c) as [[olat olng]|e]; [|reflexivity].
    destruct (find_nearest_place W olat olng wp_value s2)
      as [[[[[[[lat lng] name] addr] pid]|]|e] s3]; try reflexivity.
    destruct (get_place_details W pid s3) as [[det|e] s4]; reflexivity.
Qed.

Lemma py_getitem_state wp k s r s' :
  py_getitem wp k s = (r, s') -> s' = s.
Proof.
  unfold py_getitem, ret, raise.
  destruct wp; try congruence.
  destruct (dict_get m k); congruence.
Qed.

Lemma details_of_info_state W (info : option (pynum * pynum * string * string * string)) s r s' :
  match info with
  | Some (_, _, _, _, place_id) => get_place_details W place_id
  | None => ret no_details
  end s = (r, s') ->
  store s' = store s /\
  exists new, trace s' = trace s ++ new /\ Forall lookup_req new.
Proof.
  destruct info as [[[[[lat lng] name] addr] pid]|]; intros H.
  - apply get_place_details_state in H. subst s'. split; [reflexivity|].
    exists [DetailsReq pid]. split; [reflexivity|]. repeat constructor.
  - inversion H; subst. split; [reflexivity|].
    exists []. now rewrite app_nil_r.
Qed.

(** A turn of the loop creates no dictionary and issues only lookups. *)
Lemma resolve_step_state W rt i wp c s r s' :
  resolve_step W rt i wp c s = (r, s') ->
  store s' = store s /\
  exists new, trace s' = trace s ++ new /\ Forall lookup_req new.
Proof.
  assert (Hnil : forall t : state, store t = store t /\
            exists new, trace t = trace t ++ new /\ Forall lookup_req new).
  { intros t. split; [reflexivity|]. exists []. now rewrite app_nil_r. }
  unfold resolve_step, bind.
  destruct (py_getitem wp "type" s) as [[wp_type|e] s1] eqn:E1;
    apply py_getitem_state in E1; subst s1;
    [|intros H; inversion H; subst; apply Hnil].
  destruct (py_getitem wp "value" s) as [[wp_value|e] s2] eqn:E2;
    apply py_getitem_state in E2; subst s2;
    [|intros H; inversion H; subst; apply Hnil].
  destruct (Nat.eqb i 0 && eq_str wp_type "place_type");
    [intros H; inversion H; subst; apply Hnil|].
  destruct (eq_str wp_type "address").
  - destruct (geocode_address W wp_value s) as [[[loc|]|e] s3] eqn:E3;
      apply geocode_address_state in E3; subst s3.
    + destruct (find_nearest_place W (fst loc) (snd loc) wp_value
                  (log s (GeocodeReq wp_value))) as [[info|e] s4] eqn:E4;
        apply find_nearest_place_state in E4; subst s4.
      * destruct (match info with
                  | Some (_, _, _, _, place_id) => get_place_details W place_id
                  | None => ret no_details
                  end (log (log s (GeocodeReq wp_value))
                           (NearbyReq (fst loc, snd loc) wp_value)))
          as [[det|e] s5] eqn:E5;
          apply details_of_info_state in E5;
          destruct E5 as [Hst [new [Htr Hall]]];
          intros H; inversion H; subst; (split; [exact Hst|]);
          exists ([GeocodeReq wp_value; NearbyReq (fst loc, snd loc) wp_value] ++ new);
          (split; [rewrite Htr; simpl; now rewrite <- !app_assoc
                  | repeat constructor; exact Hall]).
      * intros H; inversion H; subst. split; [reflexivity|].
        exists [GeocodeReq wp_value; NearbyReq (fst loc, snd loc) wp_value].
        split; [simpl; now rewrite <- app_assoc | repeat constructor].
    + intros H; inversion H; subst. split; [reflexivity|].
      exists [GeocodeReq wp_value]. split; [reflexivity | repeat constructor].
    + intros H; inversion H; subst. split; [reflexivity|].
      exists [GeocodeReq wp_value]. split; [reflexivity | repeat constructor].
  - destruct (eq_str wp_type "place_type");
      [|intros H; inversion H; subst; apply Hnil].
    destruct (py_index_last c) as [[olat olng]|e];
      [|intros H; inversion H; subst; apply Hnil].
    destruct (find_nearest_place W olat olng wp_value s)
      as [[[[[[[lat lng] name] addr] pid]|]|e] s3] eqn:E3;
      apply find_nearest_place_state in E3; subst s3.
    + destruct (get_place_details W pid (log s (NearbyReq (olat, olng) wp_value)))
        as [[det|e] s4] eqn:E4;
        apply get_place_details_state in E4; subst s4;
        intros H; inversion H; subst; (split; [reflexivity|]);
        exists [NearbyReq (olat, olng) wp_value; DetailsReq pid];
        (split; [simpl; now rewrite <- app_assoc | repeat constructor]).
    + intros H; inversion H; subst. split; [reflexivity|].
      exists [NearbyReq (olat, olng) wp_value].
      split; [reflexivity | repeat constructor].
    + intros H; inversion H; subst. split; [reflexivity|].
      exists [NearbyReq (olat, olng) wp_value].
      split; [reflexivity | repeat constructor].
Qed.

(** The dictionary a turn builds carries the coordinates it appends. *)
Lemma resolve_step_coords W rt i wp c s loc det s' :
  resolve_step W rt i wp c s = (Ok (inr (Some (loc, det))), s') ->
  wd_coordinates det = loc.
Proof.
  unfold resolve_step, bind, ret.
  destruct (py_getitem wp "type" s) as [[wp_type|e] s1]; [|congruence].
  destruct (py_getitem wp "value" s1) as [[wp_value|e] s2]; [|congruence].
  destruct (Nat.eqb i 0 && eq_str wp_type "place_type"); [congruence|].
  destruct (eq_str wp_type "address").
  - destruct (geocode_address W wp_value s2) as [[[l|]|e] s3]; try congruence.
    destruct (find_nearest_place W (fst l) (snd l) wp_value s3)
      as [[info|e] s4]; [|congruence].
    destruct (match info with
              | Some (_, _, _, _, place_id) => get_place_details W place_id
              | None => fun s => (Ok no_details, s)
              end s4) as [[pd|e] s5]; [|congruence].
    intros H; inversion H; subst. reflexivity.
  - destruct (eq_str wp_type "place_type"); [|congruence].
    destruct (py_index_last c) as [[olat olng]|e]; [|congruence].
    destruct (find_nearest_place W olat olng wp_value s2)
      as [[[[[[[lat lng] name] addr] pid]|]|e] s3]; try congruence.
    destruct (get_place_details W pid s3) as [[pd|e] s4]; [|congruence].
    intros H; inversion H; subst. reflexivity.
Qed.

(** An intent of a known kind is never passed over. *)
Lemma resolve_step_known W rt i wp c s s' :
  known_kind wp = true ->
  resolve_step W rt i wp c s <> (Ok (inr None), s').
Proof.
  unfold known_kind, resolve_step, bind, ret, py_getitem.
  destruct wp as [| | | | |m]; try discriminate.
  destruct (dict_get m "type") as [t|]; [|discriminate].
  destruct (dict_get m "value") as [v|]; [|discriminate].
  intros Hk. simpl.
  destruct (Nat.eqb i 0 && eq_str t "place_type"); [congruence|].
  destruct (eq_str t "address").
  - destruct (geocode_address W v s) as [[[l|]|e] s3]; try congruence.
    destruct (find_nearest_place W (fst l) (snd l) v s3)
      as [[info|e] s4]; [|congruence].
    destruct (match info with
              | Some (_, _, _, _, place_id) => get_place_details W place_id
              | None => fun s => (Ok no_details, s)
              end s4) as [[pd|e] s5]; congruence.
  - simpl in Hk. rewrite Hk.
    destruct (py_index_last c) as [[olat olng]|e]; [|congruence].
    destruct (find_nearest_place W olat olng v s)
      as [[[[[[[lat lng] name] addr] pid]|]|e] s3]; try congruence.
    destruct (get_place_details W pid s3) as [[pd|e] s4]; congruence.
Qed.

(** An intent of another kind is passed over: nothing is requested, nothing
    is returned. *)
Lemma resolve_step_unknown W rt i wp c s :
  unknown_kind wp = true ->
  resolve_step W rt i wp c s = (Ok (inr None), s).
Proof.
  unfold unknown_kind, resolve_step, bind, ret, py_getitem.
  destruct wp as [| | | | |m]; try discriminate.
  destruct (dict_get m "type") as [t|]; [|discriminate].
  destruct (dict_get m "value") as [v|]; [|discriminate].
  intros Hk. apply andb_prop in Hk. destruct Hk as [Ha Hp].
  apply negb_true_iff in Ha. apply negb_true_iff in Hp.
  simpl. rewrite Ha, Hp. rewrite andb_false_r. reflexivity.
Qed.

(** Past position 0 the position plays no part. *)
Lemma resolve_step_index W rt i j wp c :
  i <> 0 -> j <> 0 ->
  resolve_step W rt i wp c = resolve_step W rt j wp c.
Proof.
  intros Hi Hj. unfold resolve_step.
  apply Nat.eqb_neq in Hi. apply Nat.eqb_neq in Hj.
  rewrite Hi, Hj. reflexivity.
Qed.

Lemma resolve_loop_index W rt wps :
  forall i j c d s,
    i <> 0 -> j <> 0 ->
    resolve_loop W rt i wps c d s = resolve_loop W rt j wps c d s.
Proof.
  induction wps as [|wp rest IH]; intros i j c d s Hi Hj.
  - reflexivity.
  - rewrite !resolve_loop_cons. unfold bind.
    rewrite (resolve_step_index W rt i j wp c Hi Hj).
    destruct (resolve_step W rt j wp c s) as [[[out|[[loc det]|]]|e] s1];
      try reflexivity.
    + unfold resolve_next, bind, alloc. apply IH; discriminate.
    + unfold resolve_next. apply IH; discriminate.
Qed.

(** What the loop does to the state, and what it returns when it runs to
    its end: the requests are lookups; the dictionaries created are [objs];
    the coordinates appended are theirs and the references appended are the
    fresh ones, in order; no intent yields more than one waypoint, and an
    intent of a known kind yields one. *)
Lemma resolve_loop_inv W rt wps :
  forall i c d s r s',
    resolve_loop W rt i wps c d s = (r, s') ->
    exists new objs,
      trace s' = trace s ++ new /\ Forall lookup_req new /\
      store s' = store s ++ objs /\
      forall c' d',
        r = Ok (inr (c', d')) ->
        c' = c ++ map wd_coordinates objs /\
        d' = d ++ seq (length (store s)) (length objs) /\
        length objs <= length wps /\
        (forallb known_kind wps = true -> length objs = length wps).
Proof.
  induction wps as [|wp rest IH]; intros i c d s r s' H.
  - inversion H; subst. exists [], []. rewrite !app_nil_r.
    repeat split; auto; congruence.
  - rewrite resolve_loop_cons in H. unfold bind in H.
    destruct (resolve_step W rt i wp c s) as [[[out|[[loc det]|]]|e] s1] eqn:E;
      pose proof (resolve_step_state _ _ _ _ _ _ _ _ E) as [Hst [new1 [Htr Hall]]].
    + inversion H; subst. exists new1, []. rewrite app_nil_r.
      repeat split; auto; discriminate.
    + apply resolve_step_coords in E.
      unfold resolve_next, bind, alloc in H.
      apply IH in H. destruct H as [new2 [objs [Htr2 [Hall2 [Hst2 Hres]]]]].
      simpl in Htr2, Hst2.
      exists (new1 ++ new2), (det :: objs).
      split; [rewrite Htr2, Htr; now rewrite app_assoc|].
      split; [apply Forall_app; auto|].
      split; [rewrite Hst2, Hst; now rewrite <- app_assoc|].
      intros c' d' Hr. destruct (Hres c' d' Hr) as [Hc [Hd [Hle Hk]]].
      simpl in Hd. rewrite Hst in Hd. rewrite length_app in Hd. simpl in Hd.
      repeat split.
      * rewrite Hc. simpl. rewrite E. now rewrite <- app_assoc.
      * rewrite Hd. simpl. rewrite <- app_assoc. simpl.
        now rewrite Nat.add_1_r.
      * simpl. lia.
      * simpl. intros Hf. apply andb_prop in Hf. destruct Hf as [_ Hf].
        now rewrite (Hk Hf).
    + unfold resolve_next in H.
      apply IH in H. destruct H as [new2 [objs [Htr2 [Hall2 [Hst2 Hres]]]]].
      exists (new1 ++ new2), objs.
      split; [rewrite Htr2, Htr; now rewrite app_assoc|].
      split; [apply Forall_app; auto|].
      split; [rewrite Hst2, Hst; reflexivity|].
      intros c' d' Hr. destruct (Hres c' d' Hr) as [Hc [Hd [Hle Hk]]].
      rewrite Hst in Hd.
      repeat split; auto.
      * simpl. lia.
      * simpl. intros Hf. apply andb_prop in Hf. destruct Hf as [Hw _].
        exfalso. exact (resolve_step_known W rt i wp c s _ Hw E).
    + inversion H; subst. exists new1, []. rewrite app_nil_r.
      repeat split; auto; discriminate.
Qed.

(** The loop over a list in two parts. *)
Lemma resolve_loop_app W rt pre post :
  forall i c d s,
    resolve_loop W rt i (pre ++ post) c d s
    = match resolve_loop W rt i pre c d s with
      | (Ok (inr (c', d')), s1) =>
          resolve_loop W rt (i + length pre) post c' d' s1
      | other => other
      end.
Proof.
  induction pre as [|wp pre IH]; intros i c d s.
  - simpl. unfold ret. now rewrite Nat.add_0_r.
  - rewrite <- app_comm_cons. rewrite !resolve_loop_cons. unfold bind.
    destruct (resolve_step W rt i wp c s) as [[[out|[[loc det]|]]|e] s1];
      try reflexivity.
    + unfold resolve_next, bind, alloc. rewrite IH. simpl length.
      now rewrite Nat.add_succ_r.
    + unfold resolve_next. rewrite IH. simpl length.
      now rewrite Nat.add_succ_r.
Qed.

(** Step 3 neither requests nor creates anything; on two lists of equal
    length it closes both. *)
Lemma handle_round_trip_spec rt (c : list coord) (d : list ref) s :
  length c = length d ->
  handle_round_trip rt c d s = (Ok (close_loop rt c, close_loop rt d), s).
Proof.
  intros Hlen. unfold handle_round_trip, close_loop.
  destruct (truthy rt); [|reflexivity].
  destruct c as [|c0 c]; destruct d as [|d0 d]; try discriminate; reflexivity.
Qed.

(** ** C5 *)

(** C5. When the intents before an ["address"] intent have been resolved and
    the geocoding service reports no match for its address (a status other
    than ["OK"]), the pipeline returns the outcome with no polyline, no
    instructions, no waypoints, the extractor's [round_trip] value and the
    notice "Could not geocode address: " followed by the address. *)
Theorem geocode_failure_is_reported :
  forall W user_prompt s s0 m pre wp a rest coords refs s1 reply,
    extract_waypoints W user_prompt s = (Ok (JObj m), s0) ->
    dict_get m "waypoints" = Some (JArr (pre ++ JObj wp :: rest)) ->
    dict_get wp "type" = Some (JStr "address") ->
    dict_get wp "value" = Some (JStr a) ->
    resolve_loop W (get_or m "round_trip" (JBool false)) 0 pre [] [] s0
    = (Ok (inr (coords, refs)), s1) ->
    get_geocode W (trace s1) (JStr a) = Ok reply ->
    geo_status reply <> "OK" ->
    process_user_prompt W user_prompt s
    = (Ok {| polyline := None; instructions := []; waypoints := [];
             round_trip := get_or m "round_trip" (JBool false);
             notes := JStr ("Could not geocode address: " ++ a)%string;
             legs := None |},
       log s1 (GeocodeReq (JStr a))).
Proof.
  intros W user_prompt s s0 m pre wp a rest coords refs s1 reply
         Hext Hway Htype Hval Hpre Hgeo Hstatus.
  unfold process_user_prompt.
  rewrite (bind_ok _ _ _ _ _ Hext).
  unfold py_get. unfold bind at 1. unfold ret at 1.
  unfold bind at 1. unfold ret at 1. unfold bind at 1. unfold ret at 1.
  rewrite Hway. fold (get_or m "round_trip" (JBool false)).
  replace (negb (truthy (JArr (pre ++ JObj wp :: rest)))) with false
    by (destruct pre; reflexivity).
  unfold py_iter. unfold bind at 1. unfold ret at 1.
  unfold bind at 1. rewrite resolve_loop_app, Hpre.
  rewrite resolve_loop_cons.
  assert (Hstep :
    resolve_step W (get_or m "round_trip" (JBool false)) (0 + length pre)
                 (JObj wp) coords s1
    = (Ok (inl (failure (get_or m "round_trip" (JBool false))
                  ("Could not geocode address: " ++ a)%string)),
       log s1 (GeocodeReq (JStr a)))).
  { unfold resolve_step, py_getitem, bind, ret.
    rewrite Htype, Hval.
    change (eq_str (JStr "address") "place_type") with false.
    change (eq_str (JStr "address") "address") with true.
    rewrite andb_false_r. cbv iota beta.
    unfold geocode_address, bind, send, ret. rewrite Hgeo.
    apply String.eqb_neq in Hstatus. rewrite Hstatus. reflexivity. }
  rewrite (bind_ok _ _ _ _ _ Hstep). reflexivity.
Qed.

(** Scenario 5 of the specification. *)
Lemma geocode_failure_is_reported_witness :
  process_user_prompt
    (Sample.world (Ok (Sample.reply [Sample.intent "address" "Nonexistent Place"] true))
                  (Sample.ok_route "abc"))
    "take me to Nonexistent Place and back" Sample.start
  = (Ok {| polyline := None; instructions := []; waypoints := [];
           round_trip := JBool true;
           notes := JStr "Could not geocode address: Nonexistent Place";
           legs := None |},
     {| trace := [ChatReq "take me to Nonexistent Place and back";
                  GeocodeReq (JStr "Nonexistent Place")];
        store := [] |}).
Proof.
  apply (@geocode_failure_is_reported _ _ _
           (log Sample.start (ChatReq "take me to Nonexistent Place and back"))
           [("waypoints", JArr [Sample.intent "address" "Nonexistent Place"]);
            ("round_trip", JBool true); ("extra_notes", JStr "")]
           [] [("type", JStr "address"); ("value", JStr "Nonexistent Place")]
           "Nonexistent Place" [] [] []
           (log Sample.start (ChatReq "take me to Nonexistent Place and back"))
           {| geo_status := "ZERO_RESULTS"; geo_results := [] |});
    try reflexivity.
  simpl. discriminate.
Defined.

(** ** The route compiler *)

Lemma fold_steps (l : list Step) (acc : list string) :
  fold_left (fun ins step => ins ++ [step_entry step]) l acc
  = acc ++ map step_entry l.
Proof.
  revert acc. induction l as [|st l IH]; intros acc; simpl.
  - now rewrite app_nil_r.
  - rewrite IH. now rewrite <- app_assoc.
Qed.

Lemma fold_legs (l : list Leg) (ins : list string) (meta : list LegInfo) :
  fold_left
    (fun (acc : list string * list LegInfo) leg =>
       let (instructions, legs_metadata) := acc in
       let legs_metadata := legs_metadata ++ [leg_info leg] in
       let instructions :=
         fold_left (fun ins step => ins ++ [step_entry step])
                   (leg_steps leg) instructions in
       (instructions, legs_metadata))
    l (ins, meta)
  = (ins ++ flat_map (fun leg => map step_entry (leg_steps leg)) l,
     meta ++ map leg_info l).
Proof.
  revert ins meta. induction l as [|leg l IH]; intros ins meta; simpl.
  - now rewrite !app_nil_r.
  - rewrite IH, fold_steps. now rewrite <- !app_assoc.
Qed.

(** The two loops flatten the steps of all legs, in order, and give one
    summary per leg, in order. *)
Lemma collect_legs_spec (l : list Leg) :
  collect_legs l
  = (flat_map (fun leg => map step_entry (leg_steps leg)) l, map leg_info l).
Proof. unfold collect_legs. now rewrite fold_legs. Qed.

Lemma two_or_more {A} (l : list A) :
  2 <= length l -> exists o mid dst, l = o :: mid ++ [dst].
Proof.
  destruct l as [|o l]; simpl; [lia|]. intros H.
  destruct (@exists_last A l) as [mid [dst ->]].
  - destruct l; simpl in *; [lia | discriminate].
  - now exists o, mid, dst.
Qed.

(** The request that [get_directions_with_waypoints] builds from a list of
    two or more points: the first is the origin, the last the destination,
    and those in between, if any, the intermediate stops. *)
Lemma get_directions_with_waypoints_request W o mid dst s :
  get_directions_with_waypoints W (o :: mid ++ [dst]) s
  = let stops := match mid with [] => None | _ => Some mid end in
    match get_directions W (trace s) o dst stops with
    | Ok reply =>
        (if String.eqb (dir_status reply) "OK" then
           match routes reply with
           | route :: _ =>
               Ok (Some (route_overview_points route),
                   flat_map (fun leg => map step_entry (leg_steps leg))
                            (route_legs route),
                   map leg_info (route_legs route))
           | [] => Raise IndexError
           end
         else Ok (None, [], []),
         log s (DirectionsReq o dst stops))
    | Raise e => (Raise e, log s (DirectionsReq o dst stops))
    end.
Proof.
  unfold get_directions_with_waypoints.
  assert (Hlen : length (o :: mid ++ [dst]) = 2 + length mid)
    by (simpl; rewrite length_app; simpl; lia).
  rewrite Hlen.
  replace (Nat.ltb (2 + length mid) 2) with false
    by (symmetry; apply Nat.ltb_ge; lia).
  assert (Hstops : (if Nat.ltb 2 (2 + length mid)
                    then Some (interior (o :: mid ++ [dst])) else None)
                   = match mid with [] => None | _ => Some mid end).
  { unfold interior. simpl tl. rewrite removelast_last.
    destruct mid; [reflexivity|].
    replace (Nat.ltb 2 (2 + length (c :: mid))) with true
      by (symmetry; apply Nat.ltb_lt; simpl; lia).
    reflexivity. }
  rewrite Hstops.
  unfold py_index_last. rewrite last_last.
  change (@py_index coord (o :: mid ++ [dst]) 0) with (Ok o).
  unfold bind, lift, send, ret, log. cbv iota beta.
  destruct (get_directions W (trace s) o dst
              match mid with [] => None | _ :: _ => Some mid end)
    as [reply|e]; [|reflexivity].
  destruct (String.eqb (dir_status reply) "OK"); [|reflexivity].
  destruct (routes reply) as [|route more]; [reflexivity|].
  change (py_index (route :: more) 0) with (Ok route). cbv iota beta.
  rewrite collect_legs_spec. reflexivity.
Qed.

(** With fewer than two points the compiler is not called. *)
Lemma request_route_short W rt notes c d s :
  length c < 2 ->
  request_route W rt notes c d s
  = (Ok (failure rt not_enough), s).
Proof.
  intros H. unfold request_route.
  apply Nat.ltb_lt in H. now rewrite H.
Qed.

(** ** The pipeline up to the compiler *)

(** When the extractor's output is a dict with a non-empty waypoint list, the
    pipeline is the loop followed by steps 3 to 5. *)
Lemma pipeline_enters_loop W user_prompt s s0 m wps :
  extract_waypoints W user_prompt s = (Ok (JObj m), s0) ->
  dict_get m "waypoints" = Some (JArr wps) ->
  wps <> [] ->
  process_user_prompt W user_prompt s
  = match resolve_loop W (get_or m "round_trip" (JBool false)) 0 wps [] [] s0 with
    | (Ok (inl out), s1) => (Ok out, s1)
    | (Ok (inr (c, d)), s1) =>
        request_route W (get_or m "round_trip" (JBool false))
                      (get_or m "extra_notes" (JStr ""))
                      (close_loop (get_or m "round_trip" (JBool false)) c)
                      (close_loop (get_or m "round_trip" (JBool false)) d) s1
    | (Raise e, s1) => (Raise e, s1)
    end.
Proof.
  intros Hext Hway Hne.
  unfold process_user_prompt.
  rewrite (bind_ok _ _ _ _ _ Hext).
  unfold py_get. unfold bind at 1. unfold ret at 1.
  unfold bind at 1. unfold ret at 1. unfold bind at 1. unfold ret at 1.
  rewrite Hway.
  fold (get_or m "round_trip" (JBool false)).
  fold (get_or m "extra_notes" (JStr "")).
  replace (negb (truthy (JArr wps))) with false
    by (destruct wps; [congruence | reflexivity]).
  unfold py_iter. unfold bind at 1. unfold ret at 1. unfold bind at 1.
  destruct (resolve_loop W (get_or m "round_trip" (JBool false)) 0 wps [] [] s0)
    as [[[out|[c d]]|e] s1] eqn:E; try reflexivity.
  apply resolve_loop_inv in E.
  destruct E as [new [objs [_ [_ [_ Hres]]]]].
  destruct (Hres c d eq_refl) as [Hc [Hd _]]. simpl in Hc, Hd.
  assert (Hlen : length c = length d)
    by (rewrite Hc, Hd, length_map, length_seq; reflexivity).
  unfold bind. rewrite handle_round_trip_spec by exact Hlen. reflexivity.
Qed.

(** Steps 4 and 5 on two or more points, once the directions service has
    answered. *)
Lemma request_route_reply W rt notes o mid dst d s reply :
  get_directions W (trace s) o dst (match mid with [] => None | _ => Some mid end)
  = Ok reply ->
  request_route W rt notes (o :: mid ++ [dst]) d s
  = (if String.eqb (dir_status reply) "OK" then
       match routes reply with
       | route :: _ =>
           if String.eqb (route_overview_points route) "" then
             Ok {| polyline := None; instructions := []; waypoints := d;
                   round_trip := rt; notes := JStr directions_failed;
                   legs := None |}
           else
             Ok {| polyline := Some (route_overview_points route);
                   instructions :=
                     flat_map (fun leg => map step_entry (leg_steps leg))
                              (route_legs route);
                   waypoints := d; round_trip := rt; notes := notes;
                   legs := Some (map leg_info (route_legs route)) |}
       | [] => Raise IndexError
       end
     else
       Ok {| polyline := None; instructions := []; waypoints := d;
             round_trip := rt; notes := JStr directions_failed; legs := None |},
     log s (DirectionsReq o dst (match mid with [] => None | _ => Some mid end))).
Proof.
  intros Hreply. unfold request_route.
  replace (Nat.ltb (length (o :: mid ++ [dst])) 2) with false
    by (symmetry; apply Nat.ltb_ge; simpl; rewrite length_app; simpl; lia).
  unfold bind. rewrite get_directions_with_waypoints_request.
  cbv zeta. rewrite Hreply.
  destruct (String.eqb (dir_status reply) "OK"); [|reflexivity].
  destruct (routes reply) as [|route more]; [reflexivity|].
  unfold falsy_poly, ret.
  destruct (String.eqb (route_overview_points route) ""); reflexivity.
Qed.

(** The run of the pipeline when the loop has resolved its intents and two
    or more points remain after step 3. *)
Lemma pipeline_requests_route W user_prompt s s0 m wps rt coords refs s1 o mid dst :
  extract_waypoints W user_prompt s = (Ok (JObj m), s0) ->
  dict_get m "waypoints" = Some (JArr wps) ->
  rt = get_or m "round_trip" (JBool false) ->
  resolve_loop W rt 0 wps [] [] s0 = (Ok (inr (coords, refs)), s1) ->
  close_loop rt coords = o :: mid ++ [dst] ->
  process_user_prompt W user_prompt s
  = request_route W rt (get_or m "extra_notes" (JStr ""))
                  (o :: mid ++ [dst]) (close_loop rt refs) s1.
Proof.
  intros Hext Hway -> Hloop Hclose.
  assert (Hne : wps <> []).
  { intros ->. simpl in Hloop. inversion Hloop; subst.
    unfold close_loop in Hclose.
    destruct (truthy (get_or m "round_trip" (JBool false))); discriminate. }
  rewrite (pipeline_enters_loop _ _ _ _ _ _ Hext Hway Hne), Hloop, Hclose.
  reflexivity.
Qed.

(** ** C7 *)

(** C7. When the loop has resolved its intents, two or more points remain
    after the round trip step, and the directions service answers with a
    status other than ["OK"], the pipeline returns the outcome whose
    waypoints are the whole resolved list (closed by the first waypoint when
    the round trip applies), with no polyline, no instructions, the
    extractor's [round_trip] value and the notice that the directions
    request failed. *)
Theorem no_route_keeps_waypoints :
  forall W user_prompt s s0 m wps rt coords refs s1 o mid dst reply,
    extract_waypoints W user_prompt s = (Ok (JObj m), s0) ->
    dict_get m "waypoints" = Some (JArr wps) ->
    rt = get_or m "round_trip" (JBool false) ->
    resolve_loop W rt 0 wps [] [] s0 = (Ok (inr (coords, refs)), s1) ->
    close_loop rt coords = o :: mid ++ [dst] ->
    get_directions W (trace s1) o dst (match mid with [] => None | _ => Some mid end)
    = Ok reply ->
    dir_status reply <> "OK" ->
    process_user_prompt W user_prompt s
    = (Ok {| polyline := None; instructions := [];
             waypoints := close_loop rt refs;
             round_trip := rt;
             notes := JStr "Directions request failed. Please try again.";
             legs := None |},
       log s1 (DirectionsReq o dst (match mid with [] => None | _ => Some mid end))).
Proof.
  intros W user_prompt s s0 m wps rt coords refs s1 o mid dst reply
         Hext Hway Hrt Hloop Hclose Hreply Hstatus.
  rewrite (pipeline_requests_route _ _ _ _ _ _ _ _ _ _ _ _ _ Hext Hway Hrt Hloop Hclose).
  rewrite (request_route_reply _ _ _ _ _ _ _ _ _ Hreply).
  apply String.eqb_neq in Hstatus. rewrite Hstatus. reflexivity.
Qed.

Lemma no_route_keeps_waypoints_witness :
  fst (process_user_prompt
         (Sample.world
            (Ok (Sample.reply [Sample.intent "address" "UTSC";
                               Sample.intent "place_type" "coffee shop"] true))
            Sample.no_route)
         "UTSC, a coffee shop, and back" Sample.start)
  = Ok {| polyline := None; instructions := [];
          waypoints := [0; 1; 0];
          round_trip := JBool true;
          notes := JStr "Directions request failed. Please try again.";
          legs := None |}.
Proof.
  set (W := Sample.world
       (Ok (Sample.reply [Sample.intent "address" "UTSC";
                          Sample.intent "place_type" "coffee shop"] true))
       Sample.no_route).
  pose (s0 := log Sample.start (ChatReq "UTSC, a coffee shop, and back")).
  pose (r := resolve_loop W (JBool true) 0
               [Sample.intent "address" "UTSC";
                Sample.intent "place_type" "coffee shop"] [] [] s0).
  rewrite (no_route_keeps_waypoints W _ _ s0
           [("waypoints", JArr [Sample.intent "address" "UTSC";
                                Sample.intent "place_type" "coffee shop"]);
            ("round_trip", JBool true); ("extra_notes", JStr "")]
           [Sample.intent "address" "UTSC";
            Sample.intent "place_type" "coffee shop"]
           (JBool true) [Sample.utsc; Sample.cafe_at] [0; 1] (snd r)
           Sample.utsc [Sample.cafe_at] Sample.utsc Sample.no_route
           eq_refl eq_refl eq_refl eq_refl eq_refl eq_refl).
  - reflexivity.
  - simpl. discriminate.
Defined.

(** ** C10 *)

(** C10. When the directions service answers ["OK"] with a route whose
    overview polyline is the empty string, the pipeline returns the
    "Directions request failed" outcome: no polyline, no instructions and no
    leg summaries, whatever steps and legs the route has; the resolved
    waypoints and the extractor's [round_trip] value are kept. *)
Theorem empty_polyline_is_a_failure :
  forall W user_prompt s s0 m wps rt coords refs s1 o mid dst reply route more,
    extract_waypoints W user_prompt s = (Ok (JObj m), s0) ->
    dict_get m "waypoints" = Some (JArr wps) ->
    rt = get_or m "round_trip" (JBool false) ->
    resolve_loop W rt 0 wps [] [] s0 = (Ok (inr (coords, refs)), s1) ->
    close_loop rt coords = o :: mid ++ [dst] ->
    get_directions W (trace s1) o dst (match mid with [] => None | _ => Some mid end)
    = Ok reply ->
    dir_status reply = "OK" ->
    routes reply = route :: more ->
    route_overview_points route = "" ->
    process_user_prompt W user_prompt s
    = (Ok {| polyline := None; instructions := [];
             waypoints := close_loop rt refs;
             round_trip := rt;
             notes := JStr "Directions request failed. Please try again.";
             legs := None |},
       log s1 (DirectionsReq o dst (match mid with [] => None | _ => Some mid end))).
Proof.
  intros W user_prompt s s0 m wps rt coords refs s1 o mid dst reply route more
         Hext Hway Hrt Hloop Hclose Hreply Hstatus Hroutes Hpoly.
  rewrite (pipeline_requests_route _ _ _ _ _ _ _ _ _ _ _ _ _
             Hext Hway Hrt Hloop Hclose).
  rewrite (request_route_reply _ _ _ _ _ _ _ _ _ Hreply).
  rewrite Hstatus, Hroutes, Hpoly. reflexivity.
Qed.

Lemma empty_polyline_is_a_failure_witness :
  fst (process_user_prompt
         (Sample.world
            (Ok (Sample.reply [Sample.intent "address" "UTSC";
                               Sample.intent "place_type" "coffee shop"] false))
            (Sample.ok_route ""))
         "UTSC, then a coffee shop" Sample.start)
  = Ok {| polyline := None; instructions := [];
          waypoints := [0; 1];
          round_trip := JBool false;
          notes := JStr "Directions request failed. Please try again.";
          legs := None |}.
Proof.
  set (W := Sample.world
       (Ok (Sample.reply [Sample.intent "address" "UTSC";
                          Sample.intent "place_type" "coffee shop"] false))
       (Sample.ok_route "")).
  pose (s0 := log Sample.start (ChatReq "UTSC, then a coffee shop")).
  pose (r := resolve_loop W (JBool false) 0
               [Sample.intent "address" "UTSC";
                Sample.intent "place_type" "coffee shop"] [] [] s0).
  rewrite (empty_polyline_is_a_failure W _ _ s0
           [("waypoints", JArr [Sample.intent "address" "UTSC";
                                Sample.intent "place_type" "coffee shop"]);
            ("round_trip", JBool false); ("extra_notes", JStr "")]
           [Sample.intent "address" "UTSC";
            Sample.intent "place_type" "coffee shop"]
           (JBool false) [Sample.utsc; Sample.cafe_at] [0; 1] (snd r)
           Sample.utsc [] Sample.cafe_at (Sample.ok_route "")
           {| route_overview_points := "";
              route_legs := [Sample.leg1; Sample.leg2] |} []
           eq_refl eq_refl eq_refl eq_refl eq_refl eq_refl eq_refl eq_refl eq_refl).
  reflexivity.
Defined.

(** ** C8 *)

(** C8. When the directions service answers ["OK"], the compiler returns the
    overview polyline of the first route together with one list of
    instructions, the steps of all legs in order, each the step's
    instruction text with the matches of the tag pattern removed, a space
    and the step's distance text in parentheses, and with one summary
    (distance text, duration text) per leg in order; when the polyline is
    not empty these are the instructions and the legs of the pipeline's
    outcome. *)
Theorem instructions_flatten_the_legs :
  forall W user_prompt s s0 m wps rt coords refs s1 o mid dst reply route more,
    extract_waypoints W user_prompt s = (Ok (JObj m), s0) ->
    dict_get m "waypoints" = Some (JArr wps) ->
    rt = get_or m "round_trip" (JBool false) ->
    resolve_loop W rt 0 wps [] [] s0 = (Ok (inr (coords, refs)), s1) ->
    close_loop rt coords = o :: mid ++ [dst] ->
    get_directions W (trace s1) o dst (match mid with [] => None | _ => Some mid end)
    = Ok reply ->
    dir_status reply = "OK" ->
    routes reply = route :: more ->
    route_overview_points route <> "" ->
    get_directions_with_waypoints W (close_loop rt coords) s1
    = (Ok (Some (route_overview_points route),
           flat_map
             (fun leg =>
                map (fun step =>
                       (re_sub_tags (step_html_instructions step)
                        ++ " (" ++ step_distance_text step ++ ")")%string)
                    (leg_steps leg))
             (route_legs route),
           map (fun leg => {| distance := leg_distance_text leg;
                              duration := leg_duration_text leg |})
               (route_legs route)),
       log s1 (DirectionsReq o dst (match mid with [] => None | _ => Some mid end)))
    /\
    process_user_prompt W user_prompt s
    = (Ok {| polyline := Some (route_overview_points route);
             instructions :=
               flat_map
                 (fun leg =>
                    map (fun step =>
                           (re_sub_tags (step_html_instructions step)
                            ++ " (" ++ step_distance_text step ++ ")")%string)
                        (leg_steps leg))
                 (route_legs route);
             waypoints := close_loop rt refs;
             round_trip := rt;
             notes := get_or m "extra_notes" (JStr "");
             legs := Some (map (fun leg => {| distance := leg_distance_text leg;
                                              duration := leg_duration_text leg |})
                               (route_legs route)) |},
       log s1 (DirectionsReq o dst (match mid with [] => None | _ => Some mid end))).
Proof.
  intros W user_prompt s s0 m wps rt coords refs s1 o mid dst reply route more
         Hext Hway Hrt Hloop Hclose Hreply Hstatus Hroutes Hpoly.
  split.
  - rewrite Hclose, get_directions_with_waypoints_request.
    cbv zeta. rewrite Hreply, Hstatus, Hroutes. reflexivity.
  - rewrite (pipeline_requests_route _ _ _ _ _ _ _ _ _ _ _ _ _
               Hext Hway Hrt Hloop Hclose).
    rewrite (request_route_reply _ _ _ _ _ _ _ _ _ Hreply).
    rewrite Hstatus, Hroutes.
    apply String.eqb_neq in Hpoly. rewrite Hpoly. reflexivity.
Qed.

(** Scenario 4 of the specification, with the instructions of its route. *)
Lemma instructions_flatten_the_legs_witness :
  fst (process_user_prompt
         (Sample.world
            (Ok (Sample.reply [Sample.intent "address" "UTSC";
                               Sample.intent "place_type" "coffee shop"] true))
            (Sample.ok_route "abc"))
         "UTSC, a coffee shop, and back" Sample.start)
  = Ok {| polyline := Some "abc";
          instructions := ["Head north on Main St (0.5 km)";
                           "Turn leftToll road (0.7 km)";
                           "Head south (1.3 km)"];
          waypoints := [0; 1; 0];
          round_trip := JBool true;
          notes := JStr "";
          legs := Some [ {| distance := "1.2 km"; duration := "4 mins" |};
                         {| distance := "1.3 km"; duration := "5 mins" |} ] |}.
Proof.
  set (W := Sample.world
       (Ok (Sample.reply [Sample.intent "address" "UTSC";
                          Sample.intent "place_type" "coffee shop"] true))
       (Sample.ok_route "abc")).
  pose (s0 := log Sample.start (ChatReq "UTSC, a coffee shop, and back")).
  pose (r := resolve_loop W (JBool true) 0
               [Sample.intent "address" "UTSC";
                Sample.intent "place_type" "coffee shop"] [] [] s0).
  rewrite (proj2 (instructions_flatten_the_legs W _ _ s0
           [("waypoints", JArr [Sample.intent "address" "UTSC";
                                Sample.intent "place_type" "coffee shop"]);
            ("round_trip", JBool true); ("extra_notes", JStr "")]
           [Sample.intent "address" "UTSC";
            Sample.intent "place_type" "coffee shop"]
           (JBool true) [Sample.utsc; Sample.cafe_at] [0; 1] (snd r)
           Sample.utsc [Sample.cafe_at] Sample.utsc (Sample.ok_route "abc")
           {| route_overview_points := "abc";
              route_legs := [Sample.leg1; Sample.leg2] |} []
           eq_refl eq_refl eq_refl eq_refl eq_refl eq_refl eq_refl eq_refl
           ltac:(discriminate))).
  reflexivity.
Defined.

(** *** What [re_sub_tags] removes *)

Lemma tag_rest_closed (body post : string) :
  occurs "<" body = false -> occurs ">" body = false ->
  tag_rest (body ++ String ">" post)%string = Some (S (String.length body)).
Proof.
  induction body as [|c body IH]; simpl; intros Hlt Hgt.
  - reflexivity.
  - apply orb_false_elim in Hlt. destruct Hlt as [Hc1 Hlt].
    apply orb_false_elim in Hgt. destruct Hgt as [Hc2 Hgt].
    rewrite Hc1, Hc2, (IH Hlt Hgt). reflexivity.
Qed.

(** Text without "<" before a tag is kept. *)
Lemma sub_tags_prefix (pre rest : string) :
  occurs "<" pre = false ->
  sub_tags 0 (pre ++ rest)%string = (pre ++ sub_tags 0 rest)%string.
Proof.
  induction pre as [|c pre IH]; simpl; intros H.
  - reflexivity.
  - apply orb_false_elim in H. destruct H as [Hc H].
    destruct (pre ++ rest)%string eqn:E.
    + f_equal. exact (IH H).
    + rewrite Hc. cbn [andb]. f_equal. exact (IH H).
Qed.

(** Text without "<" is left as it is. *)
Lemma re_sub_tags_plain (text : string) :
  occurs "<" text = false -> re_sub_tags text = text.
Proof.
  intros H. unfold re_sub_tags.
  assert (Hnil : forall t : string, (t ++ "")%string = t)
    by (induction t; simpl; congruence).
  rewrite <- (Hnil text) at 1.
  rewrite (sub_tags_prefix text "" H). simpl. apply Hnil.
Qed.

(** A tag, "<" then a non-empty name without "<" and ">" then ">", is
    removed together with everything up to it being kept, and the search
    goes on behind it. *)
Lemma sub_tags_at_match (c : ascii) (s : string) (n : nat) :
  match_tag (String c s) = Some n ->
  sub_tags 0 (String c s) = sub_tags (n - 1) s.
Proof.
  intros H.
  change (sub_tags 0 (String c s))
    with (match match_tag (String c s) with
          | Some n => sub_tags (n - 1) s
          | None => String c (sub_tags 0 s)
          end).
  now rewrite H.
Qed.

Lemma sub_tags_skip_closing (body post : string) (c : ascii) :
  sub_tags (S (String.length body)) (body ++ String c post)%string
  = sub_tags 0 post.
Proof. induction body as [|b body IH]; simpl; auto. Qed.

Lemma re_sub_tags_tag (pre body post : string) :
  occurs "<" pre = false ->
  body <> ""%string ->
  occurs "<" body = false -> occurs ">" body = false ->
  re_sub_tags (pre ++ String "<" (body ++ String ">" post))%string
  = (pre ++ re_sub_tags post)%string.
Proof.
  intros Hpre Hne Hlt Hgt. unfold re_sub_tags.
  rewrite (sub_tags_prefix _ _ Hpre). f_equal.
  destruct body as [|b body]; [congruence|].
  simpl in Hlt, Hgt.
  apply orb_false_elim in Hlt. destruct Hlt as [Hb1 Hlt].
  apply orb_false_elim in Hgt. destruct Hgt as [Hb2 Hgt].
  rewrite (sub_tags_at_match _ _ (2 + S (String.length body))).
  - change (sub_tags (2 + S (String.length body) - 1)
                     (String b body ++ String ">" post)%string)
      with (sub_tags (S (String.length body)) (body ++ String ">" post)%string).
    apply sub_tags_skip_closing.
  - change (match_tag (String "<" (String b body ++ String ">" post)%string))
      with (if Ascii.eqb "<" "<" && negb (Ascii.eqb b "<")
            then option_map (fun n => 2 + n)
                            (tag_rest (body ++ String ">" post)%string)
            else None).
    rewrite Hb1, (tag_rest_closed body post Hlt Hgt). reflexivity.
Qed.

Example re_sub_tags_sample :
  re_sub_tags "Turn <b>left</b> onto <b>Main St</b><div style=x>Toll road</div>"
  = "Turn left onto Main StToll road".
Proof. reflexivity. Qed.

(** Whatever steps 4 and 5 return on two or more points carries the
    waypoint list and the [round_trip] value they were given; they create no
    dictionary and issue one request, to the directions service. *)
Lemma request_route_long W rt notes c d s r s' :
  2 <= length c ->
  request_route W rt notes c d s = (r, s') ->
  store s' = store s /\
  (exists o dst stops, trace s' = trace s ++ [DirectionsReq o dst stops]) /\
  (forall out, r = Ok out -> waypoints out = d /\ round_trip out = rt).
Proof.
  intros Hlen H.
  destruct (two_or_more c Hlen) as [o [mid [dst ->]]].
  unfold request_route in H.
  replace (Nat.ltb (length (o :: mid ++ [dst])) 2) with false in H
    by (symmetry; apply Nat.ltb_ge; exact Hlen).
  unfold bind in H. rewrite get_directions_with_waypoints_request in H.
  cbv zeta in H.
  destruct (get_directions W (trace s) o dst
              match mid with [] => None | _ :: _ => Some mid end) as [reply|e].
  - destruct (String.eqb (dir_status reply) "OK").
    + destruct (routes reply) as [|route more].
      * inversion H; subst. split; [reflexivity|]. split; [simpl; eauto|].
        intros out Hout; discriminate.
      * unfold falsy_poly, ret in H.
        destruct (String.eqb (route_overview_points route) "");
          inversion H; subst; (split; [reflexivity|]); (split; [simpl; eauto|]);
          intros out Hout; inversion Hout; subst; split; reflexivity.
    + inversion H; subst. split; [reflexivity|]. split; [simpl; eauto|].
      intros out Hout; inversion Hout; subst; split; reflexivity.
  - inversion H; subst. split; [reflexivity|]. split; [simpl; eauto|].
    intros out Hout; discriminate.
Qed.

(** ** C2 *)

(** Steps 4 and 5 on two or more points: whatever the directions service
    does, one request is made, with the first point as origin, the last as
    destination and those in between as stops, and an outcome carries the
    waypoint list and the [round_trip] value it was given. *)
Lemma request_route_state W rt extra o mid dst d s r s' :
  request_route W rt extra (o :: mid ++ [dst]) d s = (r, s') ->
  s' = log s (DirectionsReq o dst (match mid with [] => None | _ => Some mid end)) /\
  forall out, r = Ok out -> waypoints out = d /\ round_trip out = rt.
Proof.
  intros H. unfold request_route in H.
  replace (Nat.ltb (length (o :: mid ++ [dst])) 2) with false in H
    by (symmetry; apply Nat.ltb_ge; simpl; rewrite length_app; simpl; lia).
  unfold bind in H. rewrite get_directions_with_waypoints_request in H.
  cbv zeta in H.
  destruct (get_directions W (trace s) o dst
              match mid with [] => None | _ :: _ => Some mid end) as [reply|e].
  - destruct (String.eqb (dir_status reply) "OK").
    + destruct (routes reply) as [|route more].
      * inversion H; subst. split; [reflexivity|]. intros out Hout; discriminate.
      * unfold falsy_poly, ret in H.
        destruct (String.eqb (route_overview_points route) "");
          inversion H; subst; (split; [reflexivity|]);
          intros out Hout; inversion Hout; subst; split; reflexivity.
    + inversion H; subst. split; [reflexivity|].
      intros out Hout; inversion Hout; subst; split; reflexivity.
  - inversion H; subst. split; [reflexivity|]. intros out Hout; discriminate.
Qed.

(** C2. When the extractor's [round_trip] is true and the loop has resolved
    all of its N intents (N at least 1, each of a known kind), the list of
    resolved waypoints after the round trip step has N + 1 entries; the
    entry appended is the reference that stands first in the list, so the
    last entry is the same dictionary as the first and the last coordinates
    are the first coordinates; the step issues no request and creates no
    dictionary, the store holding the N dictionaries of the loop.  The run
    of the pipeline is then steps 4 and 5 on these two lists: it asks for
    directions from the first point back to the first point through the
    others, makes no other request after the loop, and whatever outcome it
    returns has this list as its waypoints. *)
Theorem round_trip_appends_first_waypoint :
  forall W user_prompt s s0 m wps rt coords refs s1,
    extract_waypoints W user_prompt s = (Ok (JObj m), s0) ->
    dict_get m "waypoints" = Some (JArr wps) ->
    wps <> [] ->
    forallb known_kind wps = true ->
    rt = get_or m "round_trip" (JBool false) ->
    truthy rt = true ->
    resolve_loop W rt 0 wps [] [] s0 = (Ok (inr (coords, refs)), s1) ->
    exists c0 r0 w0,
      length coords = length wps /\ length refs = length wps /\
      hd_error coords = Some c0 /\ hd_error refs = Some r0 /\
      handle_round_trip rt coords refs s1
      = (Ok (coords ++ [c0], refs ++ [r0]), s1) /\
      length (refs ++ [r0]) = length wps + 1 /\
      nth_error (store s1) r0 = Some w0 /\ wd_coordinates w0 = c0 /\
      length (store s1) = length (store s0) + length wps /\
      process_user_prompt W user_prompt s
      = request_route W rt (get_or m "extra_notes" (JStr ""))
                      (coords ++ [c0]) (refs ++ [r0]) s1 /\
      (forall res s',
         process_user_prompt W user_prompt s = (res, s') ->
         s' = log s1 (DirectionsReq c0 c0
                        (match tl coords with
                         | [] => None
                         | _ :: _ => Some (tl coords)
                         end)) /\
         forall out, res = Ok out ->
                     waypoints out = refs ++ [r0] /\ round_trip out = rt) /\
      forall out s2,
        process_user_prompt W user_prompt s = (Ok out, s2) ->
        waypoints out = refs ++ [r0] /\ store s2 = store s1.
Proof.
  intros W user_prompt s s0 m wps rt coords refs s1
         Hext Hway Hne Hknown Hrt Htruthy Hloop.
  pose proof (resolve_loop_inv W rt wps 0 [] [] s0 _ _ Hloop)
    as [new [objs [Htr [Hall [Hst Hres]]]]].
  destruct (Hres coords refs eq_refl) as [Hc [Hd [_ Hlen]]].
  simpl in Hc, Hd. specialize (Hlen Hknown).
  destruct objs as [|w0 objs].
  { destruct wps; [congruence | discriminate]. }
  exists (wd_coordinates w0), (length (store s0)), w0.
  assert (Hcl : length coords = length wps)
    by (rewrite Hc, length_map; exact Hlen).
  assert (Hdl : length refs = length wps)
    by (rewrite Hd, length_seq; exact Hlen).
  assert (Hcc : close_loop rt coords = coords ++ [wd_coordinates w0])
    by (unfold close_loop; rewrite Htruthy, Hc; reflexivity).
  assert (Hcd : close_loop rt refs = refs ++ [length (store s0)])
    by (unfold close_loop; rewrite Htruthy, Hd; reflexivity).
  assert (Hrtstep :
    handle_round_trip rt coords refs s1
    = (Ok (coords ++ [wd_coordinates w0], refs ++ [length (store s0)]), s1)).
  { rewrite handle_round_trip_spec by congruence. now rewrite Hcc, Hcd. }
  assert (Hrun :
    process_user_prompt W user_prompt s
    = request_route W rt (get_or m "extra_notes" (JStr ""))
                    (coords ++ [wd_coordinates w0])
                    (refs ++ [length (store s0)]) s1).
  { rewrite (pipeline_enters_loop _ _ _ _ _ _ Hext Hway Hne).
    rewrite <- Hrt, Hloop, Hcc, Hcd. reflexivity. }
  assert (Hshape : coords ++ [wd_coordinates w0]
                   = wd_coordinates w0 :: tl coords ++ [wd_coordinates w0])
    by (rewrite Hc; reflexivity).
  assert (Hstate :
    forall res s',
      process_user_prompt W user_prompt s = (res, s') ->
      s' = log s1 (DirectionsReq (wd_coordinates w0) (wd_coordinates w0)
                     (match tl coords with
                      | [] => None
                      | _ :: _ => Some (tl coords)
                      end)) /\
      forall out, res = Ok out ->
                  waypoints out = refs ++ [length (store s0)] /\
                  round_trip out = rt).
  { intros res s' H. rewrite Hrun, Hshape in H.
    exact (request_route_state _ _ _ _ _ _ _ _ _ _ H). }
  split; [exact Hcl|]. split; [exact Hdl|].
  split; [rewrite Hc; reflexivity|]. split; [rewrite Hd; reflexivity|].
  split; [exact Hrtstep|].
  split; [rewrite length_app, Hdl; reflexivity|].
  split; [rewrite Hst, nth_error_app2 by lia; now rewrite Nat.sub_diag|].
  split; [reflexivity|].
  split; [rewrite Hst, length_app, Hlen; reflexivity|].
  split; [exact Hrun|]. split; [exact Hstate|].
  intros out s2 H. destruct (Hstate _ _ H) as [Hs2 Hout].
  split; [exact (proj1 (Hout out eq_refl)) | rewrite Hs2; reflexivity].
Qed.

(** Scenario 4 of the specification: the run of the pipeline is steps 4
    and 5 on the closed lists, the route is asked from UTSC back to UTSC
    through the coffee shop, and the third waypoint is the first. *)
Lemma round_trip_appends_first_waypoint_witness :
  exists c0 r0 w0,
    handle_round_trip (JBool true) [Sample.utsc; Sample.cafe_at] [0; 1]
                      Sample.resolved
    = (Ok ([Sample.utsc; Sample.cafe_at] ++ [c0], [0; 1] ++ [r0]), Sample.resolved) /\
    hd_error [0; 1] = Some r0 /\
    nth_error (store Sample.resolved) r0 = Some w0 /\
    wd_coordinates w0 = c0 /\
    length (store Sample.resolved) = 2 /\
    process_user_prompt Sample.round_trip_world
      "UTSC, a coffee shop, and back" Sample.start
    = request_route Sample.round_trip_world (JBool true) (JStr "")
        ([Sample.utsc; Sample.cafe_at] ++ [c0]) ([0; 1] ++ [r0])
        Sample.resolved /\
    snd (process_user_prompt Sample.round_trip_world
           "UTSC, a coffee shop, and back" Sample.start)
    = log Sample.resolved (DirectionsReq c0 c0 (Some [Sample.cafe_at])) /\
    waypoints Scenario.outcome_4 = [0; 1] ++ [r0] /\
    fst (process_user_prompt Sample.round_trip_world
           "UTSC, a coffee shop, and back" Sample.start)
    = Ok Scenario.outcome_4.
Proof.
  destruct (round_trip_appends_first_waypoint
              Sample.round_trip_world "UTSC, a coffee shop, and back"
              Sample.start Sample.asked
              [("waypoints", JArr Sample.two_stops);
               ("round_trip", JBool true); ("extra_notes", JStr "")]
              Sample.two_stops (JBool true)
              [Sample.utsc; Sample.cafe_at] [0; 1] Sample.resolved
              eq_refl eq_refl ltac:(discriminate) eq_refl eq_refl eq_refl eq_refl)
    as [c0 [r0 [w0 [_ [_ [_ [Hr [Hstep [_ [Hw [Hc [Hn [Hrun [Hstate _]]]]]]]]]]]]]].
  exists c0, r0, w0.
  split; [exact Hstep|]. split; [exact Hr|]. split; [exact Hw|].
  split; [exact Hc|]. split; [exact Hn|]. split; [exact Hrun|].
  destruct (Hstate (Ok Scenario.outcome_4)
              (snd (process_user_prompt Sample.round_trip_world
                      "UTSC, a coffee shop, and back" Sample.start))
              eq_refl) as [Hs Hout].
  split; [exact Hs|].
  split; [exact (proj1 (Hout Scenario.outcome_4 eq_refl)) | reflexivity].
Defined.

(** ** C6 *)

Lemma lookup_not_directions (l : list request) :
  Forall lookup_req l -> Forall (fun q => ~ is_directions_req q) l.
Proof.
  apply Forall_impl. intros [] H; simpl in *; tauto.
Qed.

(** The run of the pipeline on an arbitrary extractor output: it ends
    right after the extractor's request, or it is the loop over the items of
    ["waypoints"] followed by steps 3 to 5. *)
Lemma pipeline_cases W user_prompt s :
  (exists r, process_user_prompt W user_prompt s = (r, log s (ChatReq user_prompt))) \/
  exists rt notes items,
    process_user_prompt W user_prompt s
    = match resolve_loop W rt 0 items [] [] (log s (ChatReq user_prompt)) with
      | (Ok (inl out), s1) => (Ok out, s1)
      | (Ok (inr (c, d)), s1) =>
          request_route W rt notes (close_loop rt c) (close_loop rt d) s1
      | (Raise e, s1) => (Raise e, s1)
      end.
Proof.
  destruct (extract_waypoints_total W user_prompt s) as [parsed Hext].
  unfold process_user_prompt. rewrite (bind_ok _ _ _ _ _ Hext).
  destruct parsed as [| | | | |m]; try (left; eexists; reflexivity).
  unfold py_get, bind, ret. cbv beta iota.
  set (ws := match dict_get m "waypoints" with Some v => v | None => JArr [] end).
  set (rt := match dict_get m "round_trip" with Some v => v | None => JBool false end).
  set (notes := match dict_get m "extra_notes" with Some v => v | None => JStr "" end).
  destruct (negb (truthy ws)); [left; eexists; reflexivity|].
  destruct (py_iter ws (log s (ChatReq user_prompt))) as [[items|e] s0] eqn:Eit.
  - assert (s0 = log s (ChatReq user_prompt))
      by (destruct ws; inversion Eit; reflexivity).
    subst s0. right. exists rt, notes, items.
    destruct (resolve_loop W rt 0 items [] [] (log s (ChatReq user_prompt)))
      as [[[out|[c d]]|e] s1] eqn:E; try reflexivity.
    apply resolve_loop_inv in E.
    destruct E as [new [objs [_ [_ [_ Hres]]]]].
    destruct (Hres c d eq_refl) as [Hc [Hd _]]. simpl in Hc, Hd.
    rewrite handle_round_trip_spec; [reflexivity|].
    rewrite Hc, Hd, length_map, length_seq. reflexivity.
  - left. assert (s0 = log s (ChatReq user_prompt))
      by (destruct ws; inversion Eit; reflexivity).
    subst s0. eexists; reflexivity.
Qed.

(** C6. In every run of the pipeline the directions service is either not
    called at all, or called once, as the last request of the run, with a
    request built from the two or more points that remain after the loop and
    the round trip step (the first as origin, the last as destination, those
    in between as stops).  When fewer than two points remain the run ends
    with the "Not enough waypoints" outcome, with no polyline and without
    any request to the directions service; the compiler itself, given fewer
    than two points, answers without a request. *)
Theorem directions_need_two_points :
  forall W user_prompt s r s',
    process_user_prompt W user_prompt s = (r, s') ->
    (exists new,
       trace s' = trace s ++ new /\
       (Forall (fun q => ~ is_directions_req q) new \/
        exists rt items s0 coords refs s1 before o mid dst,
          resolve_loop W rt 0 items [] [] s0 = (Ok (inr (coords, refs)), s1) /\
          close_loop rt coords = o :: mid ++ [dst] /\
          2 <= length (close_loop rt coords) /\
          Forall (fun q => ~ is_directions_req q) before /\
          new = before ++ [DirectionsReq o dst
                             (match mid with [] => None | _ => Some mid end)])) /\
    (forall m wps s0 coords refs s1,
       extract_waypoints W user_prompt s = (Ok (JObj m), s0) ->
       dict_get m "waypoints" = Some (JArr wps) ->
       wps <> [] ->
       resolve_loop W (get_or m "round_trip" (JBool false)) 0 wps [] [] s0
       = (Ok (inr (coords, refs)), s1) ->
       length (close_loop (get_or m "round_trip" (JBool false)) coords) < 2 ->
       r = Ok {| polyline := None; instructions := []; waypoints := [];
                 round_trip := get_or m "round_trip" (JBool false);
                 notes := JStr "Not enough waypoints to create a route.";
                 legs := None |} /\
       s' = s1 /\
       exists new,
         trace s' = trace s ++ new /\
         Forall (fun q => ~ is_directions_req q) new) /\
    (forall coords t,
       length coords < 2 ->
       get_directions_with_waypoints W coords t = (Ok (None, [], []), t)).
Proof.
  intros W user_prompt s r s' Hrun. split; [|split].
  - destruct (pipeline_cases W user_prompt s) as [[r0 H0]|[rt [notes [items H0]]]];
      rewrite H0 in Hrun.
    + inversion Hrun; subst. exists [ChatReq user_prompt].
      split; [reflexivity|]. left. repeat constructor. simpl. tauto.
    + destruct (resolve_loop W rt 0 items [] [] (log s (ChatReq user_prompt)))
        as [[[out|[c d]]|e] s1] eqn:E;
        pose proof (resolve_loop_inv W rt items 0 [] [] _ _ _ E)
          as [new [objs [Htr [Hall _]]]];
        apply lookup_not_directions in Hall; simpl in Htr.
      * inversion Hrun; subst. exists (ChatReq user_prompt :: new).
        split; [rewrite Htr; now rewrite <- app_assoc|].
        left. constructor; [simpl; tauto | exact Hall].
      * destruct (Nat.lt_ge_cases (length (close_loop rt c)) 2) as [Hshort|Hlong].
        -- rewrite request_route_short in Hrun by exact Hshort.
           inversion Hrun; subst. exists (ChatReq user_prompt :: new).
           split; [rewrite Htr; now rewrite <- app_assoc|].
           left. constructor; [simpl; tauto | exact Hall].
        -- destruct (two_or_more _ Hlong) as [o [mid [dst Hc]]].
           rewrite Hc in Hrun.
           assert (Hs' : s' = log s1 (DirectionsReq o dst
                                 (match mid with [] => None | _ => Some mid end))).
           { unfold request_route in Hrun.
             replace (Nat.ltb (length (o :: mid ++ [dst])) 2) with false in Hrun
               by (symmetry; apply Nat.ltb_ge; rewrite <- Hc; exact Hlong).
             unfold bind in Hrun.
             rewrite get_directions_with_waypoints_request in Hrun.
             cbv zeta in Hrun.
             destruct (get_directions W (trace s1) o dst
                         match mid with [] => None | _ :: _ => Some mid end)
               as [reply|e0].
             - destruct (String.eqb (dir_status reply) "OK").
               + destruct (routes reply) as [|route more].
                 * now inversion Hrun.
                 * unfold falsy_poly, ret in Hrun.
                   destruct (String.eqb (route_overview_points route) "");
                     now inversion Hrun.
               + now inversion Hrun.
             - now inversion Hrun. }
           subst s'.
           exists ((ChatReq user_prompt :: new)
                   ++ [DirectionsReq o dst
                         (match mid with [] => None | _ => Some mid end)]).
           split; [simpl; rewrite Htr; now rewrite <- !app_assoc|].
           right.
           exists rt, items, (log s (ChatReq user_prompt)), c, d, s1,
                  (ChatReq user_prompt :: new), o, mid, dst.
           repeat split; auto.
      * inversion Hrun; subst. exists (ChatReq user_prompt :: new).
        split; [rewrite Htr; now rewrite <- app_assoc|].
        left. constructor; [simpl; tauto | exact Hall].
  - intros m wps s0 coords refs s1 Hext Hway Hne Hloop Hshort.
    rewrite (pipeline_enters_loop _ _ _ _ _ _ Hext Hway Hne), Hloop in Hrun.
    rewrite request_route_short in Hrun by exact Hshort.
    inversion Hrun; subst. split; [reflexivity|]. split; [reflexivity|].
    destruct (extract_waypoints_total W user_prompt s) as [parsed Hext'].
    rewrite Hext in Hext'. inversion Hext'; subst.
    pose proof (resolve_loop_inv W _ wps 0 [] [] _ _ _ Hloop)
      as [new [objs [Htr [Hall _]]]].
    apply lookup_not_directions in Hall. simpl in Htr.
    exists (ChatReq user_prompt :: new).
    split; [rewrite Htr; now rewrite <- app_assoc|].
    constructor; [simpl; tauto | exact Hall].
  - intros coords t Hshort. unfold get_directions_with_waypoints.
    apply Nat.ltb_lt in Hshort. now rewrite Hshort.
Qed.

(** One address and no round trip: one point remains, no route is asked. *)
Lemma directions_need_two_points_witness :
  fst (process_user_prompt
         (Sample.world (Ok (Sample.reply [Sample.intent "address" "UTSC"] false))
                       (Sample.ok_route "abc"))
         "take me to UTSC" Sample.start)
  = Ok {| polyline := None; instructions := []; waypoints := [];
          round_trip := JBool false;
          notes := JStr "Not enough waypoints to create a route.";
          legs := None |}.
Proof.
  set (W := Sample.world (Ok (Sample.reply [Sample.intent "address" "UTSC"] false))
                         (Sample.ok_route "abc")).
  pose (s0 := log Sample.start (ChatReq "take me to UTSC")).
  pose (l := resolve_loop W (JBool false) 0 [Sample.intent "address" "UTSC"] [] [] s0).
  destruct (directions_need_two_points W "take me to UTSC" Sample.start _ _
              (surjective_pairing _)) as [_ [H _]].
  destruct (H [("waypoints", JArr [Sample.intent "address" "UTSC"]);
               ("round_trip", JBool false); ("extra_notes", JStr "")]
              [Sample.intent "address" "UTSC"] s0 [Sample.utsc] [0] (snd l)
              eq_refl eq_refl ltac:(discriminate) eq_refl
              ltac:(simpl; lia)) as [Hr _].
  exact Hr.
Defined.

(** ** C9 *)

(** Unless the list starts with a ["place_type"] intent, the loop from
    position 0 is the loop from any other position. *)
Lemma resolve_loop_from_zero W rt l i c d s :
  starts_with_place_type l = false ->
  resolve_loop W rt 0 l c d s = resolve_loop W rt (S i) l c d s.
Proof.
  destruct l as [|wp rest]; [reflexivity|]. intros Hnot.
  rewrite !resolve_loop_cons. unfold bind.
  assert (Hstep : resolve_step W rt 0 wp c s = resolve_step W rt (S i) wp c s).
  { unfold resolve_step, py_getitem, bind, ret, raise.
    destruct wp as [| | | | |m]; try reflexivity.
    simpl in Hnot.
    destruct (dict_get m "type") as [t|]; [|reflexivity].
    destruct (dict_get m "value") as [v|]; [|reflexivity].
    rewrite Hnot. reflexivity. }
  rewrite Hstep.
  destruct (resolve_step W rt (S i) wp c s) as [[[out|[[loc det]|]]|e] s1];
    try reflexivity.
  - unfold resolve_next, bind, alloc. apply resolve_loop_index; discriminate.
  - unfold resolve_next. apply resolve_loop_index; discriminate.
Qed.

(** C9, as the code has it.  An intent whose kind is neither ["address"]
    nor ["place_type"] is passed over by the loop: no waypoint and no
    coordinates are appended, nothing is requested or created, nothing is
    returned, and the loop goes on with the next intents at the next
    position.  The result is that of the loop without the intent whenever
    the intent is not at position 0, or the next intent is not a
    ["place_type"] intent. *)
Theorem unknown_kind_is_skipped :
  forall W rt i wp rest c d s,
    unknown_kind wp = true ->
    resolve_loop W rt i (wp :: rest) c d s
    = resolve_loop W rt (S i) rest c d s /\
    (i <> 0 \/ starts_with_place_type rest = false ->
     resolve_loop W rt i (wp :: rest) c d s
     = resolve_loop W rt i rest c d s).
Proof.
  intros W rt i wp rest c d s Hunk.
  assert (Hskip : resolve_loop W rt i (wp :: rest) c d s
                  = resolve_loop W rt (S i) rest c d s).
  { rewrite resolve_loop_cons. unfold bind.
    rewrite (resolve_step_unknown W rt i wp c s Hunk). reflexivity. }
  split; [exact Hskip|].
  intros [Hi|Hrest]; rewrite Hskip.
  - apply resolve_loop_index; [discriminate | exact Hi].
  - destruct i as [|i].
    + symmetry. apply resolve_loop_from_zero. exact Hrest.
    + apply resolve_loop_index; discriminate.
Qed.

(** An intent of kind ["landmark"] between an address and a place type. *)
Lemma unknown_kind_is_skipped_witness :
  resolve_loop Sample.round_trip_world (JBool true) 1
    [Sample.intent "landmark" "CN Tower"; Sample.intent "place_type" "coffee shop"]
    [Sample.utsc] [0] Sample.asked
  = resolve_loop Sample.round_trip_world (JBool true) 1
      [Sample.intent "place_type" "coffee shop"]
      [Sample.utsc] [0] Sample.asked.
Proof.
  apply (proj2 (unknown_kind_is_skipped Sample.round_trip_world (JBool true) 1
                  (Sample.intent "landmark" "CN Tower")
                  [Sample.intent "place_type" "coffee shop"]
                  [Sample.utsc] [0] Sample.asked eq_refl)).
  left. discriminate.
Defined.

(** At position 0 and before a ["place_type"] intent, an intent of another
    kind is not as good as absent: with it the loop ends on "No origin
    available" and keeps [round_trip]; without it the loop ends on the
    first-waypoint notice with [round_trip] false. *)
Lemma unknown_kind_first_is_not_absent :
  unknown_kind (Sample.intent "landmark" "CN Tower") = true /\
  fst (resolve_loop Sample.round_trip_world (JBool true) 0
         [Sample.intent "landmark" "CN Tower";
          Sample.intent "place_type" "coffee shop"] [] [] Sample.asked)
  = Ok (inl {| polyline := None; instructions := []; waypoints := [];
               round_trip := JBool true;
               notes := JStr "No origin available for place search. Please specify an address first.";
               legs := None |}) /\
  fst (resolve_loop Sample.round_trip_world (JBool true) 0
         [Sample.intent "place_type" "coffee shop"] [] [] Sample.asked)
  = Ok (inl {| polyline := None; instructions := []; waypoints := [];
               round_trip := JBool false;
               notes := JStr "Your first waypoint is a place type, but no origin was provided.";
               legs := None |}) /\
  resolve_loop Sample.round_trip_world (JBool true) 0
    [Sample.intent "landmark" "CN Tower";
     Sample.intent "place_type" "coffee shop"] [] [] Sample.asked
  <> resolve_loop Sample.round_trip_world (JBool true) 0
       [Sample.intent "place_type" "coffee shop"] [] [] Sample.asked.
Proof.
  repeat split; try reflexivity.
  vm_compute. discriminate.
Qed.

(** ** C3 *)













(** ** C4 *)

(** C4, as the code has it.  When the extractor's [try] block raises (the
    call fails, the reply has no content, or the content is not JSON), the
    pipeline returns the empty outcome, [round_trip] false, with the notice
    "I couldn't parse any valid stops from your request."; the only request
    made is the extractor's. *)
Theorem extractor_failure_is_no_stops :
  forall W user_prompt s,
    extractor_fails W (trace s) user_prompt ->
    process_user_prompt W user_prompt s
    = (Ok {| polyline := None; instructions := []; waypoints := [];
             round_trip := JBool false;
             notes := JStr "I couldn't parse any valid stops from your request.";
             legs := None |},
       log s (ChatReq user_prompt)).
Proof.
  intros W user_prompt s Hfail.
  unfold process_user_prompt.
  rewrite (bind_ok _ _ _ _ _ (extract_waypoints_failed W user_prompt s Hfail)).
  reflexivity.
Qed.

Lemma extractor_failure_is_no_stops_witness :
  process_user_prompt
    (Sample.offline Sample.round_trip_world) "UTSC, a coffee shop, and back"
    Sample.start
  = (Ok {| polyline := None; instructions := []; waypoints := [];
           round_trip := JBool false;
           notes := JStr "I couldn't parse any valid stops from your request.";
           legs := None |},
     Sample.asked).
Proof.
  apply (extractor_failure_is_no_stops
           (Sample.offline Sample.round_trip_world)
           "UTSC, a coffee shop, and back" Sample.start).
  exact I.
Defined.

(** The notice of a failed extraction is not "parser error"; and a reply
    that is JSON but not a dict (here a list) gives no outcome at all:
    [parsed.get] raises. *)
Lemma extractor_failure_notice_differs :
  extractor_fails (Sample.offline Sample.round_trip_world)
                  (trace Sample.start) "UTSC, a coffee shop, and back" /\
  (exists out,
     fst (process_user_prompt
            (Sample.offline Sample.round_trip_world)
            "UTSC, a coffee shop, and back" Sample.start) = Ok out /\
     notes out = JStr "I couldn't parse any valid stops from your request." /\
     notes out <> JStr "parser error") /\
  fst (process_user_prompt
         (Sample.world (Ok (JArr [Sample.intent "address" "UTSC"]))
                       (Sample.ok_route "abc"))
         "take me to UTSC" Sample.start)
  = Raise AttributeError.
Proof.
  split; [exact I|]. split; [|reflexivity].
  eexists. split; [reflexivity|]. split; [reflexivity|]. discriminate.
Qed.

(** * Further properties of the pipeline *)

(** ** Extractor outputs that end the run at once *)

(** X1. When the extractor's output is a dict whose ["waypoints"] is
    missing or falsy (an empty list, [None], [False], zero, an empty text
    or dict), the pipeline returns the "couldn't parse any valid stops"
    outcome with [round_trip] false, whatever the extractor's [round_trip]
    is, and makes no request besides the extractor's. *)
Theorem no_waypoints_no_route :
  forall W user_prompt s s0 m,
    extract_waypoints W user_prompt s = (Ok (JObj m), s0) ->
    truthy (get_or m "waypoints" (JArr [])) = false ->
    process_user_prompt W user_prompt s
    = (Ok {| polyline := None; instructions := []; waypoints := [];
             round_trip := JBool false;
             notes := JStr "I couldn't parse any valid stops from your request.";
             legs := None |},
       s0).
Proof.
  intros W user_prompt s s0 m Hext Hfalse.
  unfold process_user_prompt. rewrite (bind_ok _ _ _ _ _ Hext).
  unfold py_get, bind, ret. cbv beta iota.
  fold (get_or m "waypoints" (JArr [])). rewrite Hfalse. reflexivity.
Qed.

(** Scenario 1, with a [round_trip] that is dropped and a [null] list. *)
Lemma no_waypoints_no_route_witness :
  process_user_prompt
    (Cases.fixed (Ok (JObj [("waypoints", JNull); ("round_trip", JBool true)]))
                 Cases.found Cases.near Cases.routed)
    "somewhere nice" Sample.start
  = (Ok {| polyline := None; instructions := []; waypoints := [];
           round_trip := JBool false;
           notes := JStr "I couldn't parse any valid stops from your request.";
           legs := None |},
     Cases.asked "somewhere nice").
Proof.
  apply (no_waypoints_no_route
           (Cases.fixed (Ok (JObj [("waypoints", JNull); ("round_trip", JBool true)]))
                        Cases.found Cases.near Cases.routed)
           "somewhere nice" Sample.start (Cases.asked "somewhere nice")
           [("waypoints", JNull); ("round_trip", JBool true)]
           eq_refl eq_refl).
Defined.





(** X3. When ["waypoints"] is truthy but not a list (a text, a dict, a
    number, [True]), the loop raises [TypeError]: the value cannot be
    walked through, or its first item (a character, a key) cannot be
    indexed by ["type"]; no outcome is returned and no service is asked. *)
Theorem non_list_waypoints_raise :
  forall W user_prompt s s0 m ws,
    extract_waypoints W user_prompt s = (Ok (JObj m), s0) ->
    dict_get m "waypoints" = Some ws ->
    truthy ws = true ->
    (forall l, ws <> JArr l) ->
    process_user_prompt W user_prompt s = (Raise TypeError, s0).
Proof.
  intros W user_prompt s s0 m ws Hext Hway Htruthy Hnot.
  unfold process_user_prompt. rewrite (bind_ok _ _ _ _ _ Hext).
  unfold py_get, bind, ret. cbv beta iota. rewrite Hway, Htruthy.
  cbv beta iota.
  destruct ws as [|b|n|t|l|items]; simpl in Htruthy; try discriminate;
    try reflexivity.
  - destruct t as [|ch t]; [discriminate|]. reflexivity.
  - exfalso. exact (Hnot l eq_refl).
  - destruct items as [|[k v] items]; [discriminate|]. reflexivity.
Qed.

Lemma non_list_waypoints_raise_witness :
  process_user_prompt
    (Cases.fixed (Ok (JObj [("waypoints", JStr "UTSC")]))
                 Cases.found Cases.near Cases.routed)
    "take me to UTSC" Sample.start
  = (Raise TypeError, Cases.asked "take me to UTSC").
Proof.
  apply (non_list_waypoints_raise
           (Cases.fixed (Ok (JObj [("waypoints", JStr "UTSC")]))
                        Cases.found Cases.near Cases.routed)
           "take me to UTSC" Sample.start (Cases.asked "take me to UTSC")
           [("waypoints", JStr "UTSC")] (JStr "UTSC") eq_refl eq_refl eq_refl).
  intros l. discriminate.
Defined.

(** ** Where the loop ends the run *)

Lemma resolve_loop_at W rt pre wp rest i c d s c1 d1 s1 :
  resolve_loop W rt i pre c d s = (Ok (inr (c1, d1)), s1) ->
  resolve_loop W rt i (pre ++ wp :: rest) c d s
  = bind (resolve_step W rt (i + length pre) wp c1)
         (resolve_next W rt (i + length pre) rest c1 d1) s1.
Proof.
  intros Hpre. rewrite resolve_loop_app, Hpre. apply resolve_loop_cons.
Qed.

Lemma app_cons_not_nil {A} (pre : list A) (x : A) (rest : list A) :
  pre ++ x :: rest <> [].
Proof. destruct pre; discriminate. Qed.

(** The run when a turn of the loop returns. *)
Lemma pipeline_returns_at W user_prompt s s0 m pre wp rest c1 d1 s1 out s2 :
  extract_waypoints W user_prompt s = (Ok (JObj m), s0) ->
  dict_get m "waypoints" = Some (JArr (pre ++ wp :: rest)) ->
  resolve_loop W (get_or m "round_trip" (JBool false)) 0 pre [] [] s0
  = (Ok (inr (c1, d1)), s1) ->
  resolve_step W (get_or m "round_trip" (JBool false)) (length pre) wp c1 s1
  = (Ok (inl out), s2) ->
  process_user_prompt W user_prompt s = (Ok out, s2).
Proof.
  intros Hext Hway Hpre Hstep.
  rewrite (pipeline_enters_loop _ _ _ _ _ _ Hext Hway (app_cons_not_nil _ _ _)).
  rewrite (resolve_loop_at _ _ _ _ _ _ _ _ _ _ _ _ Hpre).
  change (0 + length pre) with (length pre).
  rewrite (bind_ok _ _ _ _ _ Hstep). reflexivity.
Qed.

(** The run when a turn of the loop raises. *)
Lemma pipeline_raises_at W user_prompt s s0 m pre wp rest c1 d1 s1 e s2 :
  extract_waypoints W user_prompt s = (Ok (JObj m), s0) ->
  dict_get m "waypoints" = Some (JArr (pre ++ wp :: rest)) ->
  resolve_loop W (get_or m "round_trip" (JBool false)) 0 pre [] [] s0
  = (Ok (inr (c1, d1)), s1) ->
  resolve_step W (get_or m "round_trip" (JBool false)) (length pre) wp c1 s1
  = (Raise e, s2) ->
  process_user_prompt W user_prompt s = (Raise e, s2).
Proof.
  intros Hext Hway Hpre Hstep.
  rewrite (pipeline_enters_loop _ _ _ _ _ _ Hext Hway (app_cons_not_nil _ _ _)).
  rewrite (resolve_loop_at _ _ _ _ _ _ _ _ _ _ _ _ Hpre).
  change (0 + length pre) with (length pre).
  unfold bind. rewrite Hstep. reflexivity.
Qed.

(** X4. The first failure ends the run: when the loop over the first
    intents returns a failure outcome, the pipeline returns this outcome in
    the same state whatever follows in the list; the later entries are not
    read (they may be of any shape) and no request is made for them. *)
Theorem first_failure_ends_the_run :
  forall W user_prompt s s0 m pre post out s1,
    extract_waypoints W user_prompt s = (Ok (JObj m), s0) ->
    dict_get m "waypoints" = Some (JArr (pre ++ post)) ->
    resolve_loop W (get_or m "round_trip" (JBool false)) 0 pre [] [] s0
    = (Ok (inl out), s1) ->
    process_user_prompt W user_prompt s = (Ok out, s1).
Proof.
  intros W user_prompt s s0 m pre post out s1 Hext Hway Hpre.
  assert (Hne : pre ++ post <> []).
  { destruct pre; [|discriminate]. simpl in Hpre. discriminate. }
  rewrite (pipeline_enters_loop _ _ _ _ _ _ Hext Hway Hne).
  rewrite resolve_loop_app, Hpre. reflexivity.
Qed.

(** An address that is not found, followed by an entry that is no dict. *)
Lemma first_failure_ends_the_run_witness :
  process_user_prompt
    (Sample.world
       (Ok (Sample.reply [Sample.intent "address" "Nonexistent Place"; JNull] false))
       (Sample.ok_route "abc"))
    "Nonexistent Place, then anything" Sample.start
  = (Ok {| polyline := None; instructions := []; waypoints := [];
           round_trip := JBool false;
           notes := JStr "Could not geocode address: Nonexistent Place";
           legs := None |},
     log (Cases.asked "Nonexistent Place, then anything")
         (GeocodeReq (JStr "Nonexistent Place"))).
Proof.
  apply (first_failure_ends_the_run
           (Sample.world
              (Ok (Sample.reply [Sample.intent "address" "Nonexistent Place"; JNull]
                                false))
              (Sample.ok_route "abc"))
           "Nonexistent Place, then anything" Sample.start
           (Cases.asked "Nonexistent Place, then anything")
           [("waypoints", JArr [Sample.intent "address" "Nonexistent Place"; JNull]);
            ("round_trip", JBool false); ("extra_notes", JStr "")]
           [Sample.intent "address" "Nonexistent Place"] [JNull]);
    reflexivity.
Defined.

(** The loop passes over a list of intents of other kinds: nothing changes. *)
Lemma resolve_loop_all_unknown W rt pre :
  forallb unknown_kind pre = true ->
  forall i c d s,
    resolve_loop W rt i pre c d s = (Ok (inr (c, d)), s).
Proof.
  induction pre as [|wp pre IH]; intros Hall i c d s; [reflexivity|].
  simpl in Hall. apply andb_prop in Hall. destruct Hall as [Hwp Hall].
  rewrite resolve_loop_cons. unfold bind.
  rewrite (resolve_step_unknown W rt i wp c s Hwp).
  unfold resolve_next. apply IH. exact Hall.
Qed.

(** X5. The "No origin available" outcome: a ["place_type"] intent that is
    not first in the list but has only intents of other kinds before it
    finds [coords_list] empty; the pipeline returns this outcome with the
    extractor's [round_trip] value and asks no service. *)
Theorem place_type_without_origin :
  forall W user_prompt s s0 m pre wp v rest,
    extract_waypoints W user_prompt s = (Ok (JObj m), s0) ->
    dict_get m "waypoints" = Some (JArr (pre ++ JObj wp :: rest)) ->
    pre <> [] ->
    forallb unknown_kind pre = true ->
    dict_get wp "type" = Some (JStr "place_type") ->
    dict_get wp "value" = Some v ->
    process_user_prompt W user_prompt s
    = (Ok {| polyline := None; instructions := []; waypoints := [];
             round_trip := get_or m "round_trip" (JBool false);
             notes := JStr "No origin available for place search. Please specify an address first.";
             legs := None |},
       s0).
Proof.
  intros W user_prompt s s0 m pre wp v rest Hext Hway Hne Hunk Htype Hval.
  apply (pipeline_returns_at W user_prompt s s0 m pre (JObj wp) rest [] [] s0
           _ _ Hext Hway).
  - apply resolve_loop_all_unknown. exact Hunk.
  - unfold resolve_step, py_getitem, bind, ret. rewrite Htype, Hval.
    replace (Nat.eqb (length pre) 0) with false
      by (destruct pre; [congruence | reflexivity]).
    reflexivity.
Qed.

Lemma place_type_without_origin_witness :
  process_user_prompt
    (Sample.world
       (Ok (Sample.reply [Sample.intent "landmark" "CN Tower";
                          Sample.intent "place_type" "coffee shop"] true))
       (Sample.ok_route "abc"))
    "the CN Tower, then coffee" Sample.start
  = (Ok {| polyline := None; instructions := []; waypoints := [];
           round_trip := JBool true;
           notes := JStr "No origin available for place search. Please specify an address first.";
           legs := None |},
     Cases.asked "the CN Tower, then coffee").
Proof.
  apply (place_type_without_origin
           (Sample.world
              (Ok (Sample.reply [Sample.intent "landmark" "CN Tower";
                                 Sample.intent "place_type" "coffee shop"] true))
              (Sample.ok_route "abc"))
           "the CN Tower, then coffee" Sample.start
           (Cases.asked "the CN Tower, then coffee")
           [("waypoints", JArr [Sample.intent "landmark" "CN Tower";
                                Sample.intent "place_type" "coffee shop"]);
            ("round_trip", JBool true); ("extra_notes", JStr "")]
           [Sample.intent "landmark" "CN Tower"]
           [("type", JStr "place_type"); ("value", JStr "coffee shop")]
           (JStr "coffee shop") []
           eq_refl eq_refl ltac:(discriminate) eq_refl eq_refl eq_refl).
Defined.

Lemma py_index_last_app {A} (l : list A) (x : A) :
  py_index_last (l ++ [x]) = Ok x.
Proof.
  destruct l as [|y l]; [reflexivity|].
  simpl. now rewrite last_last.
Qed.

(** When the loop from the start has resolved a point, it has passed at
    least one intent. *)
Lemma resolved_prefix_not_empty W rt pre s0 before origin refs s1 :
  resolve_loop W rt 0 pre [] [] s0 = (Ok (inr (before ++ [origin], refs)), s1) ->
  Nat.eqb (length pre) 0 = false.
Proof.
  intros Hpre. apply resolve_loop_inv in Hpre.
  destruct Hpre as [new [objs [_ [_ [_ Hres]]]]].
  destruct (Hres _ _ eq_refl) as [Hc [_ [Hle _]]]. simpl in Hc.
  apply Nat.eqb_neq. intros Hzero.
  assert (Hlen : length (before ++ [origin]) = length objs)
    by (rewrite Hc; apply length_map).
  rewrite length_app in Hlen. simpl in Hlen. lia.
Qed.

(** X6. When the intents before a ["place_type"] intent have been resolved
    and the nearby search, made at the point resolved last, finds nothing (a
    status other than ["OK"], or no result), the pipeline returns the
    outcome with no polyline, no waypoints, the extractor's [round_trip]
    value and the notice "Could not find a nearby place for: " followed by
    the keyword. *)
Theorem nearby_failure_is_reported :
  forall W user_prompt s s0 m pre wp a rest before origin refs s1 reply,
    extract_waypoints W user_prompt s = (Ok (JObj m), s0) ->
    dict_get m "waypoints" = Some (JArr (pre ++ JObj wp :: rest)) ->
    dict_get wp "type" = Some (JStr "place_type") ->
    dict_get wp "value" = Some (JStr a) ->
    resolve_loop W (get_or m "round_trip" (JBool false)) 0 pre [] [] s0
    = (Ok (inr (before ++ [origin], refs)), s1) ->
    get_nearby W (trace s1) origin (JStr a) = Ok reply ->
    nb_status reply <> "OK" \/ nb_results reply = [] ->
    process_user_prompt W user_prompt s
    = (Ok {| polyline := None; instructions := []; waypoints := [];
             round_trip := get_or m "round_trip" (JBool false);
             notes := JStr ("Could not find a nearby place for: " ++ a)%string;
             legs := None |},
       log s1 (NearbyReq origin (JStr a))).
Proof.
  intros W user_prompt s s0 m pre wp a rest before origin refs s1 reply
         Hext Hway Htype Hval Hpre Hnb Hnone.
  apply (pipeline_returns_at W user_prompt s s0 m pre (JObj wp) rest
           _ _ _ _ _ Hext Hway Hpre).
  unfold resolve_step, py_getitem, bind, ret. rewrite Htype, Hval.
  rewrite (resolved_prefix_not_empty _ _ _ _ _ _ _ _ Hpre).
  change (eq_str (JStr "place_type") "address") with false.
  change (eq_str (JStr "place_type") "place_type") with true.
  cbv iota beta. rewrite andb_false_l. cbv iota.
  rewrite py_index_last_app. destruct origin as [olat olng].
  unfold find_nearest_place, bind, send, lift, ret. rewrite Hnb.
  assert (Hcond : String.eqb (nb_status reply) "OK"
                  && Nat.ltb 0 (length (nb_results reply)) = false).
  { destruct Hnone as [Hst|Hres].
    - apply String.eqb_neq in Hst. now rewrite Hst.
    - rewrite Hres. apply andb_false_r. }
  rewrite Hcond. reflexivity.
Qed.

Lemma nearby_failure_is_reported_witness :
  process_user_prompt
    (Cases.fixed
       (Ok (Sample.reply [Sample.intent "address" "UTSC";
                          Sample.intent "place_type" "unicorn stable"] true))
       Cases.found Cases.nothing_near Cases.routed)
    "UTSC, then a unicorn stable" Sample.start
  = (Ok {| polyline := None; instructions := []; waypoints := [];
           round_trip := JBool true;
           notes := JStr "Could not find a nearby place for: unicorn stable";
           legs := None |},
     {| trace := [ChatReq "UTSC, then a unicorn stable";
                  GeocodeReq (JStr "UTSC");
                  NearbyReq Sample.utsc (JStr "UTSC");
                  NearbyReq Sample.utsc (JStr "unicorn stable")];
        store := [ {| wd_name := JStr "UTSC"; wd_address := JStr "UTSC";
                      wd_coordinates := Sample.utsc; wd_type := "Address";
                      wd_hours := []; wd_photos := [] |} ] |}).
Proof.
  apply (nearby_failure_is_reported
           (Cases.fixed
              (Ok (Sample.reply [Sample.intent "address" "UTSC";
                                 Sample.intent "place_type" "unicorn stable"] true))
              Cases.found Cases.nothing_near Cases.routed)
           "UTSC, then a unicorn stable" Sample.start
           (Cases.asked "UTSC, then a unicorn stable")
           [("waypoints", JArr [Sample.intent "address" "UTSC";
                                Sample.intent "place_type" "unicorn stable"]);
            ("round_trip", JBool true); ("extra_notes", JStr "")]
           [Sample.intent "address" "UTSC"]
           [("type", JStr "place_type"); ("value", JStr "unicorn stable")]
           "unicorn stable" [] [] Sample.utsc [0]
           {| trace := [ChatReq "UTSC, then a unicorn stable";
                        GeocodeReq (JStr "UTSC");
                        NearbyReq Sample.utsc (JStr "UTSC")];
              store := [ {| wd_name := JStr "UTSC"; wd_address := JStr "UTSC";
                            wd_coordinates := Sample.utsc; wd_type := "Address";
                            wd_hours := []; wd_photos := [] |} ] |}
           {| nb_status := "ZERO_RESULTS"; nb_results := [] |}
           eq_refl eq_refl eq_refl eq_refl eq_refl eq_refl).
  left. simpl. discriminate.
Defined.

(** X7. An address whose geocoding answer has status ["OK"] but no result
    makes [resp["results"][0]] raise: the pipeline returns no outcome, the
    [IndexError] reaches the caller (the nearby search, on the same kind of
    answer, returns [None] instead). *)
Theorem geocode_ok_without_result_raises :
  forall W user_prompt s s0 m pre wp v rest coords refs s1 reply,
    extract_waypoints W user_prompt s = (Ok (JObj m), s0) ->
    dict_get m "waypoints" = Some (JArr (pre ++ JObj wp :: rest)) ->
    dict_get wp "type" = Some (JStr "address") ->
    dict_get wp "value" = Some v ->
    resolve_loop W (get_or m "round_trip" (JBool false)) 0 pre [] [] s0
    = (Ok (inr (coords, refs)), s1) ->
    get_geocode W (trace s1) v = Ok reply ->
    geo_status reply = "OK" ->
    geo_results reply = [] ->
    process_user_prompt W user_prompt s = (Raise IndexError, log s1 (GeocodeReq v)).
Proof.
  intros W user_prompt s s0 m pre wp v rest coords refs s1 reply
         Hext Hway Htype Hval Hpre Hgeo Hstatus Hres.
  apply (pipeline_raises_at W user_prompt s s0 m pre (JObj wp) rest
           _ _ _ _ _ Hext Hway Hpre).
  unfold resolve_step, py_getitem, bind, ret. rewrite Htype, Hval.
  change (eq_str (JStr "address") "place_type") with false.
  change (eq_str (JStr "address") "address") with true.
  rewrite andb_false_r. cbv iota beta.
  unfold geocode_address, bind, send, lift, ret.
  rewrite Hgeo, Hstatus, Hres. reflexivity.
Qed.

Lemma geocode_ok_without_result_raises_witness :
  process_user_prompt
    (Cases.fixed (Ok (Sample.reply [Sample.intent "address" "UTSC"] false))
                 Cases.found_nothing Cases.near Cases.routed)
    "take me to UTSC" Sample.start
  = (Raise IndexError,
     log (Cases.asked "take me to UTSC") (GeocodeReq (JStr "UTSC"))).
Proof.
  apply (geocode_ok_without_result_raises
           (Cases.fixed (Ok (Sample.reply [Sample.intent "address" "UTSC"] false))
                        Cases.found_nothing Cases.near Cases.routed)
           "take me to UTSC" Sample.start (Cases.asked "take me to UTSC")
           [("waypoints", JArr [Sample.intent "address" "UTSC"]);
            ("round_trip", JBool false); ("extra_notes", JStr "")]
           [] [("type", JStr "address"); ("value", JStr "UTSC")]
           (JStr "UTSC") [] [] [] (Cases.asked "take me to UTSC")
           {| geo_status := "OK"; geo_results := [] |}
           eq_refl eq_refl eq_refl eq_refl eq_refl eq_refl eq_refl eq_refl).
Defined.

(** X8. A directions answer with status ["OK"] but no route makes
    [resp["routes"][0]] raise: after the loop has resolved two or more
    points the pipeline returns no outcome, the [IndexError] reaches the
    caller. *)
Theorem directions_ok_without_route_raises :
  forall W user_prompt s s0 m wps rt coords refs s1 o mid dst reply,
    extract_waypoints W user_prompt s = (Ok (JObj m), s0) ->
    dict_get m "waypoints" = Some (JArr wps) ->
    rt = get_or m "round_trip" (JBool false) ->
    resolve_loop W rt 0 wps [] [] s0 = (Ok (inr (coords, refs)), s1) ->
    close_loop rt coords = o :: mid ++ [dst] ->
    get_directions W (trace s1) o dst (match mid with [] => None | _ => Some mid end)
    = Ok reply ->
    dir_status reply = "OK" ->
    routes reply = [] ->
    process_user_prompt W user_prompt s
    = (Raise IndexError,
       log s1 (DirectionsReq o dst (match mid with [] => None | _ => Some mid end))).
Proof.
  intros W user_prompt s s0 m wps rt coords refs s1 o mid dst reply
         Hext Hway Hrt Hloop Hclose Hreply Hstatus Hroutes.
  rewrite (pipeline_requests_route _ _ _ _ _ _ _ _ _ _ _ _ _
             Hext Hway Hrt Hloop Hclose).
  rewrite (request_route_reply _ _ _ _ _ _ _ _ _ Hreply).
  rewrite Hstatus, Hroutes. reflexivity.
Qed.

Lemma directions_ok_without_route_raises_witness :
  fst (process_user_prompt
         (Cases.fixed (Ok (Sample.reply Sample.two_stops false))
                      Cases.found Cases.near Cases.no_routes)
         "UTSC, then a coffee shop" Sample.start)
  = Raise IndexError.
Proof.
  set (W := Cases.fixed (Ok (Sample.reply Sample.two_stops false))
                        Cases.found Cases.near Cases.no_routes).
  pose (r := resolve_loop W (JBool false) 0 Sample.two_stops [] []
               (Cases.asked "UTSC, then a coffee shop")).
  rewrite (directions_ok_without_route_raises W _ _
             (Cases.asked "UTSC, then a coffee shop")
             [("waypoints", JArr Sample.two_stops);
              ("round_trip", JBool false); ("extra_notes", JStr "")]
             Sample.two_stops (JBool false)
             [Sample.utsc; Sample.cafe_at] [0; 1] (snd r)
             Sample.utsc [] Sample.cafe_at
             {| dir_status := "OK"; routes := [] |}
             eq_refl eq_refl eq_refl eq_refl eq_refl eq_refl eq_refl eq_refl).
  reflexivity.
Defined.

(** ** How many requests a run makes *)

(** The run on a falsy waypoint list ends right after the extractor. *)
Lemma no_waypoints_no_route_state W user_prompt s s0 m :
  extract_waypoints W user_prompt s = (Ok (JObj m), s0) ->
  truthy (get_or m "waypoints" (JArr [])) = false ->
  process_user_prompt W user_prompt s = (Ok (failure (JBool false) no_stops), s0).
Proof.
  intros Hext Hfalse.
  unfold process_user_prompt. rewrite (bind_ok _ _ _ _ _ Hext).
  unfold py_get, bind, ret. cbv beta iota.
  fold (get_or m "waypoints" (JArr [])). rewrite Hfalse. reflexivity.
Qed.

Lemma details_of_info_budget W (info : option (pynum * pynum * string * string * string)) s r s' :
  match info with
  | Some (_, _, _, _, place_id) => get_place_details W place_id
  | None => ret no_details
  end s = (r, s') ->
  exists new, trace s' = trace s ++ new /\ length new <= 1.
Proof.
  destruct info as [[[[[lat lng] name] addr] pid]|]; intros H.
  - apply get_place_details_state in H. subst s'.
    exists [DetailsReq pid]. split; [reflexivity | simpl; lia].
  - inversion H; subst. exists []. split; [now rewrite app_nil_r | simpl; lia].
Qed.

(** A turn of the loop makes at most three requests. *)
Lemma resolve_step_budget W rt i wp c s r s' :
  resolve_step W rt i wp c s = (r, s') ->
  exists new, trace s' = trace s ++ new /\ length new <= 3.
Proof.
  assert (Hnil : forall t : state,
            exists new, trace t = trace t ++ new /\ length new <= 3).
  { intros t. exists []. split; [now rewrite app_nil_r | simpl; lia]. }
  unfold resolve_step, bind.
  destruct (py_getitem wp "type" s) as [[wp_type|e] s1] eqn:E1;
    apply py_getitem_state in E1; subst s1;
    [|intros H; inversion H; subst; apply Hnil].
  destruct (py_getitem wp "value" s) as [[wp_value|e] s2] eqn:E2;
    apply py_getitem_state in E2; subst s2;
    [|intros H; inversion H; subst; apply Hnil].
  destruct (Nat.eqb i 0 && eq_str wp_type "place_type");
    [intros H; inversion H; subst; apply Hnil|].
  destruct (eq_str wp_type "address").
  - destruct (geocode_address W wp_value s) as [[[loc|]|e] s3] eqn:E3;
      apply geocode_address_state in E3; subst s3.
    + destruct (find_nearest_place W (fst loc) (snd loc) wp_value
                  (log s (GeocodeReq wp_value))) as [[info|e] s4] eqn:E4;
        apply find_nearest_place_state in E4; subst s4.
      * destruct (match info with
                  | Some (_, _, _, _, place_id) => get_place_details W place_id
                  | None => ret no_details
                  end (log (log s (GeocodeReq wp_value))
                           (NearbyReq (fst loc, snd loc) wp_value)))
          as [[det|e] s5] eqn:E5;
          apply details_of_info_budget in E5;
          destruct E5 as [new [Htr Hlen]];
          intros H; inversion H; subst;
          exists ([GeocodeReq wp_value; NearbyReq (fst loc, snd loc) wp_value] ++ new);
          (split; [rewrite Htr; simpl; now rewrite <- !app_assoc
                  | rewrite length_app; simpl; lia]).
      * intros H; inversion H; subst.
        exists [GeocodeReq wp_value; NearbyReq (fst loc, snd loc) wp_value].
        split; [simpl; now rewrite <- app_assoc | simpl; lia].
    + intros H; inversion H; subst.
      exists [GeocodeReq wp_value]. split; [reflexivity | simpl; lia].
    + intros H; inversion H; subst.
      exists [GeocodeReq wp_value]. split; [reflexivity | simpl; lia].
  - destruct (eq_str wp_type "place_type");
      [|intros H; inversion H; subst; apply Hnil].
    destruct (py_index_last c) as [[olat olng]|e];
      [|intros H; inversion H; subst; apply Hnil].
    destruct (find_nearest_place W olat olng wp_value s)
      as [[[[[[[lat lng] name] addr] pid]|]|e] s3] eqn:E3;
      apply find_nearest_place_state in E3; subst s3.
    + destruct (get_place_details W pid (log s (NearbyReq (olat, olng) wp_value)))
        as [[det|e] s4] eqn:E4;
        apply get_place_details_state in E4; subst s4;
        intros H; inversion H; subst;
        exists [NearbyReq (olat, olng) wp_value; DetailsReq pid];
        (split; [simpl; now rewrite <- app_assoc | simpl; lia]).
    + intros H; inversion H; subst.
      exists [NearbyReq (olat, olng) wp_value].
      split; [reflexivity | simpl; lia].
    + intros H; inversion H; subst.
      exists [NearbyReq (olat, olng) wp_value].
      split; [reflexivity | simpl; lia].
Qed.

Lemma resolve_loop_budget W rt wps :
  forall i c d s r s',
    resolve_loop W rt i wps c d s = (r, s') ->
    exists new, trace s' = trace s ++ new /\ length new <= 3 * length wps.
Proof.
  induction wps as [|wp rest IH]; intros i c d s r s' H.
  - inversion H; subst. exists []. split; [now rewrite app_nil_r | simpl; lia].
  - rewrite resolve_loop_cons in H. unfold bind in H.
    destruct (resolve_step W rt i wp c s) as [[[out|[[loc det]|]]|e] s1] eqn:E;
      apply resolve_step_budget in E; destruct E as [new1 [Htr1 Hlen1]].
    + inversion H; subst. exists new1. split; [exact Htr1 | simpl; lia].
    + unfold resolve_next, bind, alloc in H. apply IH in H.
      destruct H as [new2 [Htr2 Hlen2]]. simpl in Htr2.
      exists (new1 ++ new2).
      split; [rewrite Htr2, Htr1; now rewrite app_assoc
             | rewrite length_app; simpl; lia].
    + unfold resolve_next in H. apply IH in H.
      destruct H as [new2 [Htr2 Hlen2]].
      exists (new1 ++ new2).
      split; [rewrite Htr2, Htr1; now rewrite app_assoc
             | rewrite length_app; simpl; lia].
    + inversion H; subst. exists new1. split; [exact Htr1 | simpl; lia].
Qed.

(** X9. A run on a list of N waypoint entries makes at most 3 N + 2
    requests: the extractor's, at most three per entry (geocoding, nearby
    search, details) and at most one to the directions service; this holds
    for runs that return and for runs that raise. *)
Theorem request_budget :
  forall W user_prompt s s0 m wps r s',
    extract_waypoints W user_prompt s = (Ok (JObj m), s0) ->
    dict_get m "waypoints" = Some (JArr wps) ->
    process_user_prompt W user_prompt s = (r, s') ->
    exists new,
      trace s' = trace s ++ new /\ length new <= 3 * length wps + 2.
Proof.
  intros W user_prompt s s0 m wps r s' Hext Hway Hrun.
  destruct (extract_waypoints_total W user_prompt s) as [parsed Hext'].
  rewrite Hext in Hext'. inversion Hext'; subst parsed s0. clear Hext'.
  destruct wps as [|wp rest].
  - rewrite (no_waypoints_no_route_state W user_prompt s _ m Hext) in Hrun
      by (unfold get_or; now rewrite Hway).
    inversion Hrun; subst. exists [ChatReq user_prompt].
    split; [reflexivity | simpl; lia].
  - rewrite (pipeline_enters_loop _ _ _ _ _ _ Hext Hway) in Hrun by discriminate.
    destruct (resolve_loop W (get_or m "round_trip" (JBool false)) 0 (wp :: rest)
                [] [] (log s (ChatReq user_prompt)))
      as [[[out|[c d]]|e] s1] eqn:E;
      apply resolve_loop_budget in E; destruct E as [new [Htr Hlen]];
      simpl in Htr.
    + inversion Hrun; subst. exists (ChatReq user_prompt :: new).
      split; [rewrite Htr; now rewrite <- app_assoc | simpl in *; lia].
    + destruct (Nat.lt_ge_cases
                  (length (close_loop (get_or m "round_trip" (JBool false)) c)) 2)
        as [Hshort|Hlong].
      * rewrite request_route_short in Hrun by exact Hshort.
        inversion Hrun; subst. exists (ChatReq user_prompt :: new).
        split; [rewrite Htr; now rewrite <- app_assoc | simpl in *; lia].
      * apply (request_route_long _ _ _ _ _ _ _ _ Hlong) in Hrun.
        destruct Hrun as [_ [[o [dst [stops Htr2]]] _]].
        exists ((ChatReq user_prompt :: new) ++ [DirectionsReq o dst stops]).
        split; [rewrite Htr2, Htr; simpl; now rewrite <- !app_assoc
               | rewrite length_app; simpl in *; lia].
    + inversion Hrun; subst. exists (ChatReq user_prompt :: new).
      split; [rewrite Htr; now rewrite <- app_assoc | simpl in *; lia].
Qed.

Lemma request_budget_witness :
  exists new,
    trace (snd (process_user_prompt Sample.round_trip_world
                  "UTSC, a coffee shop, and back" Sample.start))
    = trace Sample.start ++ new /\
    length new <= 3 * 2 + 2.
Proof.
  apply (request_budget Sample.round_trip_world "UTSC, a coffee shop, and back"
           Sample.start Sample.asked
           [("waypoints", JArr Sample.two_stops);
            ("round_trip", JBool true); ("extra_notes", JStr "")]
           Sample.two_stops
           (fst (process_user_prompt Sample.round_trip_world
                   "UTSC, a coffee shop, and back" Sample.start))
           _ eq_refl eq_refl (surjective_pairing _)).
Defined.

(** ** The shape of what the pipeline returns *)

(** Whatever a turn of the loop returns from inside the loop is one of the
    failure dictionaries. *)
Lemma resolve_step_returns_failure W rt i wp c s out s' :
  resolve_step W rt i wp c s = (Ok (inl out), s') ->
  exists rt' text, out = failure rt' text.
Proof.
  unfold resolve_step, bind, ret.
  destruct (py_getitem wp "type" s) as [[wp_type|e] s1]; [|congruence].
  destruct (py_getitem wp "value" s1) as [[wp_value|e] s2]; [|congruence].
  destruct (Nat.eqb i 0 && eq_str wp_type "place_type").
  { intros H; inversion H; subst. eauto. }
  destruct (eq_str wp_type "address").
  - destruct (geocode_address W wp_value s2) as [[[l|]|e] s3]; try congruence.
    + destruct (find_nearest_place W (fst l) (snd l) wp_value s3)
        as [[info|e] s4]; [|congruence].
      destruct (match info with
                | Some (_, _, _, _, place_id) => get_place_details W place_id
                | None => fun s => (Ok no_details, s)
                end s4) as [[pd|e] s5]; congruence.
    + intros H; inversion H; subst. eauto.
  - destruct (eq_str wp_type "place_type"); [|congruence].
    destruct (py_index_last c) as [[olat olng]|e].
    + destruct (find_nearest_place W olat olng wp_value s2)
        as [[[[[[[lat lng] name] addr] pid]|]|e] s3]; try congruence.
      * destruct (get_place_details W pid s3) as [[pd|e] s4]; congruence.
      * intros H; inversion H; subst. eauto.
    + intros H; inversion H; subst. eauto.
Qed.

Lemma resolve_loop_returns_failure W rt wps :
  forall i c d s out s',
    resolve_loop W rt i wps c d s = (Ok (inl out), s') ->
    exists rt' text, out = failure rt' text.
Proof.
  induction wps as [|wp rest IH]; intros i c d s out s' H.
  - discriminate.
  - rewrite resolve_loop_cons in H. unfold bind in H.
    destruct (resolve_step W rt i wp c s) as [[[out1|[[loc det]|]]|e] s1] eqn:E.
    + inversion H; subst. exact (resolve_step_returns_failure _ _ _ _ _ _ _ _ E).
    + unfold resolve_next, bind, alloc in H. exact (IH _ _ _ _ _ _ H).
    + unfold resolve_next in H. exact (IH _ _ _ _ _ _ H).
    + discriminate.
Qed.

(** An outcome of steps 4 and 5 on two or more points: the request made,
    the waypoints and [round_trip] handed on, and either nothing of a route
    or a polyline that is not empty together with the legs. *)
Lemma request_route_outcome W rt extra o mid dst d s out s' :
  request_route W rt extra (o :: mid ++ [dst]) d s = (Ok out, s') ->
  s' = log s (DirectionsReq o dst (match mid with [] => None | _ => Some mid end)) /\
  waypoints out = d /\ round_trip out = rt /\
  ((polyline out = None /\ instructions out = [] /\ legs out = None) \/
   (exists poly meta,
      polyline out = Some poly /\ poly <> "" /\ legs out = Some meta /\
      notes out = extra)).
Proof.
  intros H. unfold request_route in H.
  replace (Nat.ltb (length (o :: mid ++ [dst])) 2) with false in H
    by (symmetry; apply Nat.ltb_ge; simpl; rewrite length_app; simpl; lia).
  unfold bind in H. rewrite get_directions_with_waypoints_request in H.
  cbv zeta in H.
  destruct (get_directions W (trace s) o dst
              match mid with [] => None | _ :: _ => Some mid end) as [reply|e];
    [|discriminate].
  destruct (String.eqb (dir_status reply) "OK").
  - destruct (routes reply) as [|route more]; [discriminate|].
    unfold falsy_poly, ret in H.
    destruct (String.eqb (route_overview_points route) "") eqn:Epoly;
      inversion H; subst; repeat split; auto.
    right. eexists; eexists. repeat split.
    now apply String.eqb_neq.
  - inversion H; subst. repeat split; auto.
Qed.

(** The three ways a run can go: it raises right after the extractor's
    request, it returns the "no stops" outcome there, or it is the loop over
    the items of ["waypoints"] followed by steps 3 to 5. *)
Lemma pipeline_run W user_prompt s :
  (exists e, (e = AttributeError \/ e = TypeError) /\
             process_user_prompt W user_prompt s
             = (Raise e, log s (ChatReq user_prompt))) \/
  process_user_prompt W user_prompt s
  = (Ok (failure (JBool false) no_stops), log s (ChatReq user_prompt)) \/
  exists rt extra items,
    process_user_prompt W user_prompt s
    = match resolve_loop W rt 0 items [] [] (log s (ChatReq user_prompt)) with
      | (Ok (inl out), s1) => (Ok out, s1)
      | (Ok (inr (c, d)), s1) =>
          request_route W rt extra (close_loop rt c) (close_loop rt d) s1
      | (Raise e, s1) => (Raise e, s1)
      end.
Proof.
  destruct (extract_waypoints_total W user_prompt s) as [parsed Hext].
  unfold process_user_prompt. rewrite (bind_ok _ _ _ _ _ Hext).
  destruct parsed as [| | | | |m];
    try (left; exists AttributeError; split; [now left | reflexivity]).
  unfold py_get, bind, ret. cbv beta iota.
  set (ws := match dict_get m "waypoints" with Some v => v | None => JArr [] end).
  set (rt := match dict_get m "round_trip" with Some v => v | None => JBool false end).
  set (extra := match dict_get m "extra_notes" with Some v => v | None => JStr "" end).
  destruct (negb (truthy ws)); [right; left; reflexivity|].
  destruct (py_iter ws (log s (ChatReq user_prompt))) as [[items|e] s0] eqn:Eit.
  - assert (s0 = log s (ChatReq user_prompt))
      by (destruct ws; inversion Eit; reflexivity).
    subst s0. right. right. exists rt, extra, items.
    destruct (resolve_loop W rt 0 items [] [] (log s (ChatReq user_prompt)))
      as [[[out|[c d]]|e] s1] eqn:E; try reflexivity.
    apply resolve_loop_inv in E.
    destruct E as [new [objs [_ [_ [_ Hres]]]]].
    destruct (Hres c d eq_refl) as [Hc [Hd _]]. simpl in Hc, Hd.
    rewrite handle_round_trip_spec; [reflexivity|].
    rewrite Hc, Hd, length_map, length_seq. reflexivity.
  - left. assert (s0 = log s (ChatReq user_prompt) /\ e = TypeError)
      by (destruct ws; inversion Eit; split; reflexivity).
    destruct H as [-> ->]. exists TypeError. split; [now right | reflexivity].
Qed.

Lemma close_loop_map {A B} (f : A -> B) rt (l : list A) :
  map f (close_loop rt l) = close_loop rt (map f l).
Proof.
  unfold close_loop. destruct (truthy rt); [|reflexivity].
  destruct l as [|x l]; [reflexivity|].
  simpl. rewrite map_app. reflexivity.
Qed.

Lemma close_loop_length {A B} rt (l : list A) (l' : list B) :
  length l = length l' -> length (close_loop rt l) = length (close_loop rt l').
Proof.
  unfold close_loop. destruct (truthy rt); [|auto].
  destruct l, l'; simpl; try discriminate; auto.
  intros H. rewrite !length_app. simpl. lia.
Qed.

(** Every run that returns: either the outcome is one of the failure
    dictionaries (no polyline, nothing else), or the run went through the
    loop, created the dictionaries [objs], closed the lists, and asked for
    directions through the closed list of their coordinates. *)
Lemma pipeline_outcome W user_prompt s out s' :
  process_user_prompt W user_prompt s = (Ok out, s') ->
  exists objs,
    store s' = store s ++ objs /\
    ((exists rt' text, out = failure rt' text) \/
     exists before o mid dst,
       close_loop (round_trip out) (map wd_coordinates objs) = o :: mid ++ [dst] /\
       Forall (fun q => ~ is_directions_req q) before /\
       trace s' = trace s ++ before
                  ++ [DirectionsReq o dst (match mid with [] => None | _ => Some mid end)] /\
       waypoints out
       = close_loop (round_trip out) (seq (length (store s)) (length objs)) /\
       ((polyline out = None /\ instructions out = [] /\ legs out = None) \/
        (exists poly meta,
           polyline out = Some poly /\ poly <> "" /\ legs out = Some meta))).
Proof.
  intros Hrun.
  destruct (pipeline_run W user_prompt s)
    as [[e [_ H0]]|[H0|[rt [extra [items H0]]]]]; rewrite H0 in Hrun.
  - discriminate.
  - inversion Hrun; subst. exists []. split; [simpl; now rewrite app_nil_r|].
    left. eauto.
  - destruct (resolve_loop W rt 0 items [] [] (log s (ChatReq user_prompt)))
      as [[[out1|[c d]]|e] s1] eqn:E; [| |discriminate];
      pose proof (resolve_loop_inv _ _ _ _ _ _ _ _ _ E)
        as [new [objs [Htr [Hall [Hst Hres]]]]];
      simpl in Htr, Hst.
    + inversion Hrun; subst. exists objs. split; [exact Hst|]. left.
      exact (resolve_loop_returns_failure _ _ _ _ _ _ _ _ _ E).
    + destruct (Hres c d eq_refl) as [Hc [Hd _]]. simpl in Hc, Hd.
      exists objs.
      destruct (Nat.lt_ge_cases (length (close_loop rt c)) 2) as [Hshort|Hlong].
      * rewrite request_route_short in Hrun by exact Hshort.
        inversion Hrun; subst. split; [exact Hst|]. left. eauto.
      * destruct (two_or_more _ Hlong) as [o [mid [dst Hclose]]].
        rewrite Hclose in Hrun.
        apply request_route_outcome in Hrun.
        destruct Hrun as [Hs' [Hw [Hr Hshape]]]. subst s'.
        split; [exact Hst|]. right.
        exists (ChatReq user_prompt :: new), o, mid, dst.
        rewrite Hr. rewrite <- Hc.
        split; [exact Hclose|].
        split; [constructor; [simpl; tauto | now apply lookup_not_directions]|].
        split; [simpl; rewrite Htr; simpl; now rewrite <- !app_assoc|].
        split; [rewrite Hw, Hd; reflexivity|].
        destruct Hshape as [Hf|[poly [meta [Hp [Hne [Hl _]]]]]];
          [left; exact Hf | right; eauto].
Qed.

(** X10. Every outcome the pipeline returns is of one of two shapes: no
    polyline, no instructions and no ["legs"] key; or a polyline that is not
    the empty text, the ["legs"] key, and at least two waypoints. *)
Theorem outcome_has_route_or_nothing :
  forall W user_prompt s out s',
    process_user_prompt W user_prompt s = (Ok out, s') ->
    (polyline out = None /\ instructions out = [] /\ legs out = None) \/
    (exists poly meta,
       polyline out = Some poly /\ poly <> "" /\ legs out = Some meta /\
       2 <= length (waypoints out)).
Proof.
  intros W user_prompt s out s' Hrun.
  destruct (pipeline_outcome W user_prompt s out s' Hrun)
    as [objs [_ [[rt' [text ->]]|[before [o [mid [dst [Hclose [_ [_ [Hw Hshape]]]]]]]]]]].
  - left. repeat split.
  - destruct Hshape as [Hf|[poly [meta [Hp [Hne Hl]]]]]; [left; exact Hf|].
    right. exists poly, meta. repeat split; auto.
    assert (Hlen : length (waypoints out) = length (o :: mid ++ [dst])).
    { rewrite Hw, <- Hclose. apply close_loop_length.
      now rewrite length_seq, length_map. }
    rewrite Hlen. simpl. rewrite length_app. simpl. lia.
Qed.

Lemma outcome_has_route_or_nothing_witness :
  (polyline (Scenario.outcome_4) = None /\
   instructions (Scenario.outcome_4) = [] /\ legs (Scenario.outcome_4) = None) \/
  (exists poly meta,
     polyline (Scenario.outcome_4) = Some poly /\ poly <> "" /\
     legs (Scenario.outcome_4) = Some meta /\
     2 <= length (waypoints (Scenario.outcome_4))).
Proof.
  apply (outcome_has_route_or_nothing Sample.round_trip_world
           "UTSC, a coffee shop, and back" Sample.start Scenario.outcome_4
           (snd (process_user_prompt Sample.round_trip_world
                   "UTSC, a coffee shop, and back" Sample.start))).
  reflexivity.
Defined.

Lemma close_loop_in {A} rt (l : list A) (x : A) :
  In x (close_loop rt l) -> In x l.
Proof.
  unfold close_loop. destruct (truthy rt); [|auto].
  destruct l as [|y l]; [auto|].
  intros H. apply in_app_or in H. destruct H as [H|[H|[]]]; [exact H|].
  subst. now left.
Qed.

(** X11. The waypoints of an outcome are references to dictionaries created
    in this run: when the list is not empty it is the references of all the
    dictionaries created, in the order of their creation, closed by the
    first of them when the outcome's [round_trip] is true.  So every
    reference points into the new part of the store, and without round
    trip no dictionary is listed twice. *)
Theorem waypoints_are_the_created_dictionaries :
  forall W user_prompt s out s',
    process_user_prompt W user_prompt s = (Ok out, s') ->
    exists objs,
      store s' = store s ++ objs /\
      (waypoints out = [] \/
       waypoints out
       = close_loop (round_trip out) (seq (length (store s)) (length objs))) /\
      Forall (fun r => length (store s) <= r < length (store s')) (waypoints out) /\
      (truthy (round_trip out) = false -> NoDup (waypoints out)).
Proof.
  intros W user_prompt s out s' Hrun.
  destruct (pipeline_outcome W user_prompt s out s' Hrun)
    as [objs [Hst [[rt' [text ->]]|[before [o [mid [dst [_ [_ [_ [Hw _]]]]]]]]]]];
    exists objs; (split; [exact Hst|]).
  - split; [left; reflexivity|]. split; constructor.
  - split; [right; exact Hw|]. split.
    + apply Forall_forall. intros r Hin. rewrite Hw in Hin.
      apply close_loop_in in Hin. apply in_seq in Hin.
      rewrite Hst, length_app. lia.
    + intros Hfalse. rewrite Hw. unfold close_loop. rewrite Hfalse.
      apply seq_NoDup.
Qed.

Lemma waypoints_are_the_created_dictionaries_witness :
  exists objs,
    store (snd (process_user_prompt Sample.round_trip_world
                  "UTSC, a coffee shop, and back" Sample.start))
    = store Sample.start ++ objs /\
    (waypoints Scenario.outcome_4 = [] \/
     waypoints Scenario.outcome_4
     = close_loop (round_trip Scenario.outcome_4)
                  (seq (length (store Sample.start)) (length objs))) /\
    Forall (fun r => length (store Sample.start) <= r
                     < length (store (snd (process_user_prompt
                                             Sample.round_trip_world
                                             "UTSC, a coffee shop, and back"
                                             Sample.start))))
           (waypoints Scenario.outcome_4) /\
    (truthy (round_trip Scenario.outcome_4) = false ->
     NoDup (waypoints Scenario.outcome_4)).
Proof.
  apply (waypoints_are_the_created_dictionaries Sample.round_trip_world
           "UTSC, a coffee shop, and back" Sample.start Scenario.outcome_4
           (snd (process_user_prompt Sample.round_trip_world
                   "UTSC, a coffee shop, and back" Sample.start))).
  reflexivity.
Defined.

Lemma coordinates_at_created (objs : list WaypointDetail) :
  forall before,
    map (coordinates_at (before ++ objs)) (seq (length before) (length objs))
    = map Some (map wd_coordinates objs).
Proof.
  induction objs as [|a objs IH]; intros before; [reflexivity|].
  simpl. f_equal.
  - unfold coordinates_at. rewrite nth_error_app2 by lia.
    now rewrite Nat.sub_diag.
  - specialize (IH (before ++ [a])).
    rewrite <- app_assoc, length_app in IH. simpl in IH.
    rewrite Nat.add_1_r in IH. exact IH.
Qed.

(** X12. The route is asked through the returned waypoints: when an outcome
    lists waypoints, the last request of the run is the directions request,
    no other request of the run is one, and its points, read origin, stops,
    destination, are the coordinates of the outcome's waypoints, in the
    same order. *)
Theorem route_goes_through_the_waypoints :
  forall W user_prompt s out s',
    process_user_prompt W user_prompt s = (Ok out, s') ->
    waypoints out <> [] ->
    exists before q,
      trace s' = trace s ++ before ++ [q] /\
      Forall (fun q' => ~ is_directions_req q') before /\
      map (coordinates_at (store s')) (waypoints out) = map Some (request_points q).
Proof.
  intros W user_prompt s out s' Hrun Hne.
  destruct (pipeline_outcome W user_prompt s out s' Hrun)
    as [objs [Hst [[rt' [text ->]]
                  |[before [o [mid [dst [Hclose [Hall [Htr [Hw _]]]]]]]]]]].
  - exfalso. apply Hne. reflexivity.
  - exists before,
           (DirectionsReq o dst (match mid with [] => None | _ => Some mid end)).
    split; [exact Htr|]. split; [exact Hall|].
    rewrite Hw, Hst, close_loop_map, coordinates_at_created.
    rewrite <- close_loop_map, Hclose.
    destruct mid; reflexivity.
Qed.

Lemma route_goes_through_the_waypoints_witness :
  exists before q,
    trace (snd (process_user_prompt Sample.round_trip_world
                  "UTSC, a coffee shop, and back" Sample.start))
    = trace Sample.start ++ before ++ [q] /\
    Forall (fun q' => ~ is_directions_req q') before /\
    map (coordinates_at
           (store (snd (process_user_prompt Sample.round_trip_world
                          "UTSC, a coffee shop, and back" Sample.start))))
        (waypoints Scenario.outcome_4)
    = map Some (request_points q).
Proof.
  apply (route_goes_through_the_waypoints Sample.round_trip_world
           "UTSC, a coffee shop, and back" Sample.start Scenario.outcome_4
           (snd (process_user_prompt Sample.round_trip_world
                   "UTSC, a coffee shop, and back" Sample.start))).
  - reflexivity.
  - discriminate.
Defined.

(** Steps 4 and 5 on two or more points when the directions call raises. *)
Lemma request_route_raised W rt extra o mid dst d s e :
  get_directions W (trace s) o dst (match mid with [] => None | _ => Some mid end)
  = Raise e ->
  request_route W rt extra (o :: mid ++ [dst]) d s
  = (Raise e,
     log s (DirectionsReq o dst (match mid with [] => None | _ => Some mid end))).
Proof.
  intros Hreply. unfold request_route.
  replace (Nat.ltb (length (o :: mid ++ [dst])) 2) with false
    by (symmetry; apply Nat.ltb_ge; simpl; rewrite length_app; simpl; lia).
  unfold bind. rewrite get_directions_with_waypoints_request.
  cbv zeta. rewrite Hreply. reflexivity.
Qed.

(** X13. A round trip with a single resolved point still asks for a route:
    the point is appended to itself and the directions request goes from the
    point to the same point, without stops; every outcome of such a run lists
    the one dictionary twice.  (Without round trip the same run ends with
    "Not enough waypoints".) *)
Theorem round_trip_with_one_point :
  forall W user_prompt s s0 m wps rt c r s1 res s',
    extract_waypoints W user_prompt s = (Ok (JObj m), s0) ->
    dict_get m "waypoints" = Some (JArr wps) ->
    rt = get_or m "round_trip" (JBool false) ->
    truthy rt = true ->
    resolve_loop W rt 0 wps [] [] s0 = (Ok (inr ([c], [r])), s1) ->
    process_user_prompt W user_prompt s = (res, s') ->
    s' = log s1 (DirectionsReq c c None) /\
    forall out, res = Ok out -> waypoints out = [r; r].
Proof.
  intros W user_prompt s s0 m wps rt c r s1 res s'
         Hext Hway Hrt Htruthy Hloop Hrun.
  assert (Hclose : close_loop rt [c] = c :: [] ++ [c])
    by (unfold close_loop; now rewrite Htruthy).
  rewrite (pipeline_requests_route _ _ _ _ _ _ _ _ _ _ _ _ _
             Hext Hway Hrt Hloop Hclose) in Hrun.
  assert (Hrefs : close_loop rt [r] = [r; r])
    by (unfold close_loop; now rewrite Htruthy).
  rewrite Hrefs in Hrun.
  destruct (get_directions W (trace s1) c c None) as [reply|e] eqn:Hreply.
  - rewrite (request_route_reply W rt _ c [] c _ s1 reply Hreply) in Hrun.
    inversion Hrun; subst. split; [reflexivity|].
    intros out Hout.
    destruct (String.eqb (dir_status reply) "OK").
    + destruct (routes reply) as [|route more]; [discriminate|].
      destruct (String.eqb (route_overview_points route) "");
        inversion Hout; subst; reflexivity.
    + inversion Hout; subst; reflexivity.
  - rewrite (request_route_raised W rt _ c [] c _ s1 e Hreply) in Hrun.
    inversion Hrun; subst. split; [reflexivity|]. discriminate.
Qed.

Lemma round_trip_with_one_point_witness :
  trace (snd (process_user_prompt
                (Cases.fixed (Ok (Sample.reply [Sample.intent "address" "UTSC"] true))
                             Cases.found Cases.nothing_near Cases.routed)
                "UTSC and back" Sample.start))
  = [ChatReq "UTSC and back"; GeocodeReq (JStr "UTSC");
     NearbyReq Sample.utsc (JStr "UTSC");
     DirectionsReq Sample.utsc Sample.utsc None].
Proof.
  set (W := Cases.fixed (Ok (Sample.reply [Sample.intent "address" "UTSC"] true))
                        Cases.found Cases.nothing_near Cases.routed).
  pose (l := resolve_loop W (JBool true) 0 [Sample.intent "address" "UTSC"] [] []
               (Cases.asked "UTSC and back")).
  destruct (round_trip_with_one_point W "UTSC and back" Sample.start
              (Cases.asked "UTSC and back")
              [("waypoints", JArr [Sample.intent "address" "UTSC"]);
               ("round_trip", JBool true); ("extra_notes", JStr "")]
              [Sample.intent "address" "UTSC"] (JBool true)
              Sample.utsc 0 (snd l) _ _
              eq_refl eq_refl eq_refl eq_refl eq_refl (surjective_pairing _))
    as [Hs _].
  rewrite Hs. reflexivity.
Defined.

(** ** How one intent is resolved *)

(** X14. The details of an address are best effort: when the address
    geocodes and the nearby search made for its details finds nothing (a
    status other than ["OK"], or no result), the intent is still resolved,
    with no opening hours and no photos, after two requests; the waypoint
    has the geocoded coordinates, the value as name and as address, and the
    label "Address". *)
Theorem address_without_details_resolves :
  forall W rt i wp v rest c d s reply loc more nreply,
    dict_get wp "type" = Some (JStr "address") ->
    dict_get wp "value" = Some v ->
    get_geocode W (trace s) v = Ok reply ->
    geo_status reply = "OK" ->
    geo_results reply = loc :: more ->
    get_nearby W (trace s ++ [GeocodeReq v]) loc v = Ok nreply ->
    nb_status nreply <> "OK" \/ nb_results nreply = [] ->
    resolve_loop W rt i (JObj wp :: rest) c d s
    = resolve_loop W rt (S i) rest (c ++ [loc]) (d ++ [length (store s)])
        {| trace := trace s ++ [GeocodeReq v; NearbyReq loc v];
           store := store s ++ [ {| wd_name := v; wd_address := v;
                                    wd_coordinates := loc; wd_type := "Address";
                                    wd_hours := []; wd_photos := [] |} ] |}.
Proof.
  intros W rt i wp v rest c d s reply [lat lng] more nreply
         Htype Hval Hgeo Hstatus Hres Hnb Hnone.
  rewrite resolve_loop_cons.
  assert (Hstep :
    resolve_step W rt i (JObj wp) c s
    = (Ok (inr (Some ((lat, lng),
                      {| wd_name := v; wd_address := v;
                         wd_coordinates := (lat, lng); wd_type := "Address";
                         wd_hours := []; wd_photos := [] |}))),
       log (log s (GeocodeReq v)) (NearbyReq (lat, lng) v))).
  { unfold resolve_step, py_getitem, bind, ret. rewrite Htype, Hval.
    change (eq_str (JStr "address") "place_type") with false.
    change (eq_str (JStr "address") "address") with true.
    rewrite andb_false_r. cbv iota beta.
    unfold geocode_address, bind, send, lift, ret.
    rewrite Hgeo, Hstatus, Hres.
    change (String.eqb "OK" "OK") with true. cbv iota beta.
    change (py_index ((lat, lng) :: more) 0) with (Ok (lat, lng)).
    cbv iota beta.
    unfold find_nearest_place, bind, send, lift, ret. simpl trace.
    simpl fst. simpl snd. rewrite Hnb.
    assert (Hcond : String.eqb (nb_status nreply) "OK"
                    && Nat.ltb 0 (length (nb_results nreply)) = false).
    { destruct Hnone as [Hst|Hr].
      - apply String.eqb_neq in Hst. now rewrite Hst.
      - rewrite Hr. apply andb_false_r. }
    rewrite Hcond. reflexivity. }
  rewrite (bind_ok _ _ _ _ _ Hstep).
  unfold resolve_next, bind, alloc. simpl.
  rewrite <- app_assoc. reflexivity.
Qed.

Lemma address_without_details_resolves_witness :
  resolve_loop
    (Cases.fixed (Ok JNull) Cases.found Cases.nothing_near Cases.routed)
    (JBool false) 0 [Sample.intent "address" "UTSC"] [] [] Sample.start
  = (Ok (inr ([Sample.utsc], [0])),
     {| trace := [GeocodeReq (JStr "UTSC"); NearbyReq Sample.utsc (JStr "UTSC")];
        store := [ {| wd_name := JStr "UTSC"; wd_address := JStr "UTSC";
                      wd_coordinates := Sample.utsc; wd_type := "Address";
                      wd_hours := []; wd_photos := [] |} ] |}).
Proof.
  unfold Sample.intent.
  rewrite (address_without_details_resolves
             (Cases.fixed (Ok JNull) Cases.found Cases.nothing_near Cases.routed)
             (JBool false) 0
             [("type", JStr "address"); ("value", JStr "UTSC")] (JStr "UTSC")
             [] [] [] Sample.start
             {| geo_status := "OK"; geo_results := [Sample.utsc] |}
             Sample.utsc []
             {| nb_status := "ZERO_RESULTS"; nb_results := [] |}
             eq_refl eq_refl eq_refl eq_refl eq_refl eq_refl
             (or_intror eq_refl)).
  reflexivity.
Defined.

(** X15. A ["place_type"] intent is searched near the point resolved last,
    and the first result of the search is taken: when the search answers
    ["OK"] with results and the details are fetched, the waypoint appended
    has the coordinates and the name of that first result, its vicinity as
    address (the empty text when it has none), and the label "Place Type - "
    followed by the keyword; the details are asked for its place id (the
    empty text when it has none). *)
Theorem place_type_takes_nearest_to_last_point :
  forall W rt i wp v rest before origin d s nreply place more details s3,
    i <> 0 ->
    dict_get wp "type" = Some (JStr "place_type") ->
    dict_get wp "value" = Some v ->
    get_nearby W (trace s) origin v = Ok nreply ->
    nb_status nreply = "OK" ->
    nb_results nreply = place :: more ->
    get_place_details W (match place_id place with Some p => p | None => "" end)
                      (log s (NearbyReq origin v))
    = (Ok details, s3) ->
    resolve_loop W rt i (JObj wp :: rest) (before ++ [origin]) d s
    = resolve_loop W rt (S i) rest
        ((before ++ [origin]) ++ [place_location place])
        (d ++ [length (store s)])
        {| trace := trace s ++ [NearbyReq origin v;
                                DetailsReq (match place_id place with
                                            | Some p => p | None => "" end)];
           store := store s ++
             [ {| wd_name := JStr (place_name place);
                  wd_address := JStr (match place_vicinity place with
                                      | Some a => a | None => "" end);
                  wd_coordinates := place_location place;
                  wd_type := ("Place Type - " ++ format W v)%string;
                  wd_hours := hours details;
                  wd_photos := photo_urls details |} ] |}.
Proof.
  intros W rt i wp v rest before [olat olng] d s nreply place more details s3
         Hi Htype Hval Hnb Hstatus Hres Hdet.
  pose proof (get_place_details_state _ _ _ _ _ Hdet) as Hs3.
  rewrite resolve_loop_cons.
  assert (Hstep :
    resolve_step W rt i (JObj wp) (before ++ [(olat, olng)]) s
    = (Ok (inr (Some (place_location place,
                      {| wd_name := JStr (place_name place);
                         wd_address := JStr (match place_vicinity place with
                                             | Some a => a | None => "" end);
                         wd_coordinates := place_location place;
                         wd_type := ("Place Type - " ++ format W v)%string;
                         wd_hours := hours details;
                         wd_photos := photo_urls details |}))),
       s3)).
  { unfold resolve_step, py_getitem, bind, ret. rewrite Htype, Hval.
    apply Nat.eqb_neq in Hi. rewrite Hi.
    change (eq_str (JStr "place_type") "address") with false.
    change (eq_str (JStr "place_type") "place_type") with true.
    cbv iota beta. rewrite andb_false_l. cbv iota.
    rewrite py_index_last_app.
    unfold find_nearest_place, bind, send, lift, ret.
    rewrite Hnb, Hstatus, Hres.
    change (String.eqb "OK" "OK" && Nat.ltb 0 (length (place :: more))) with true.
    cbv iota beta.
    change (py_index (place :: more) 0) with (Ok place). cbv iota beta.
    fold (log s (NearbyReq (olat, olng) v)).
    rewrite Hdet. destruct (place_location place). reflexivity. }
  rewrite (bind_ok _ _ _ _ _ Hstep).
  unfold resolve_next, bind, alloc. subst s3. simpl.
  rewrite <- (app_assoc (trace s)). reflexivity.
Qed.

Lemma place_type_takes_nearest_to_last_point_witness :
  fst (resolve_loop Sample.round_trip_world (JBool true) 2
         [Sample.intent "place_type" "coffee shop"]
         [(PInt 1, PInt 1); Sample.utsc] [0; 1] Sample.asked)
  = Ok (inr ([(PInt 1, PInt 1); Sample.utsc; Sample.cafe_at], [0; 1; 0])).
Proof.
  refine (eq_trans
            (f_equal fst
               (place_type_takes_nearest_to_last_point
                  Sample.round_trip_world (JBool true) 2
                  [("type", JStr "place_type"); ("value", JStr "coffee shop")]
                  (JStr "coffee shop") [] [(PInt 1, PInt 1)] Sample.utsc [0; 1]
                  Sample.asked
                  {| nb_status := "OK"; nb_results := [Sample.cafe] |}
                  Sample.cafe []
                  {| hours := ["Monday: 9-5"];
                     photo_urls := [photo_url Sample.round_trip_world "ref1"] |}
                  (log (log Sample.asked
                            (NearbyReq Sample.utsc (JStr "coffee shop")))
                       (DetailsReq "pid-1"))
                  _ eq_refl eq_refl eq_refl eq_refl eq_refl eq_refl)) _).
  - discriminate.
  - reflexivity.
Defined.

(** ** The tag pattern *)

Lemma tag_rest_unclosed (s : string) :
  occurs ">" s = false -> tag_rest s = None.
Proof.
  induction s as [|c s IH]; simpl; intros H; [reflexivity|].
  apply orb_false_elim in H. destruct H as [Hc H].
  rewrite Hc, (IH H). now destruct (Ascii.eqb c "<").
Qed.

Lemma match_tag_unclosed (s : string) :
  occurs ">" s = false -> match_tag s = None.
Proof.
  destruct s as [|c0 [|c1 s]]; try reflexivity.
  simpl occurs. intros H.
  apply orb_false_elim in H. destruct H as [_ H].
  apply orb_false_elim in H. destruct H as [_ H].
  unfold match_tag. rewrite (tag_rest_unclosed s H).
  now destruct (Ascii.eqb c0 "<" && negb (Ascii.eqb c1 "<")).
Qed.

Lemma sub_tags_unclosed (s : string) :
  occurs ">" s = false -> sub_tags 0 s = s.
Proof.
  induction s as [|c s IH]; intros H; [reflexivity|].
  change (sub_tags 0 (String c s))
    with (match match_tag (String c s) with
          | Some n => sub_tags (n - 1) s
          | None => String c (sub_tags 0 s)
          end).
  rewrite (match_tag_unclosed _ H).
  simpl in H. apply orb_false_elim in H. destruct H as [_ H].
  now rewrite (IH H).
Qed.

(** X16. Text without a complete tag is left as it is: an instruction that
    has no "<", or no ">", comes out of the substitution unchanged (an
    opening "<" that is never closed is kept). *)
Theorem text_without_tag_is_kept :
  forall text,
    occurs "<" text = false \/ occurs ">" text = false ->
    re_sub_tags text = text.
Proof.
  intros text [H|H].
  - exact (re_sub_tags_plain text H).
  - exact (sub_tags_unclosed text H).
Qed.

Lemma text_without_tag_is_kept_witness :
  re_sub_tags "Keep left if speed < 50" = "Keep left if speed < 50".
Proof.
  apply (text_without_tag_is_kept "Keep left if speed < 50").
  right. reflexivity.
Defined.

(** X17. A tag is removed and the text around it kept: in text that has no
    "<" before it, a "<", a name that is not empty and has neither "<" nor
    ">", and a ">" are dropped, and the substitution goes on behind the
    ">". *)
Theorem simple_tag_is_removed :
  forall pre name post,
    occurs "<" pre = false ->
    name <> ""%string ->
    occurs "<" name = false ->
    occurs ">" name = false ->
    re_sub_tags (pre ++ String "<" (name ++ String ">" post))%string
    = (pre ++ re_sub_tags post)%string.
Proof.
  intros pre name post Hpre Hne Hlt Hgt.
  exact (re_sub_tags_tag pre name post Hpre Hne Hlt Hgt).
Qed.

Lemma simple_tag_is_removed_witness :
  re_sub_tags "Turn <b>left" = "Turn left".
Proof.
  apply (simple_tag_is_removed "Turn " "b" "left");
    try reflexivity.
  discriminate.
Defined.

Lemma sub_tags_length (s : string) :
  forall k, String.length (sub_tags k s) <= String.length s.
Proof.
  induction s as [|c s IH]; intros k; [simpl; lia|].
  destruct k as [|k].
  - change (sub_tags 0 (String c s))
      with (match match_tag (String c s) with
            | Some n => sub_tags (n - 1) s
            | None => String c (sub_tags 0 s)
            end).
    destruct (match_tag (String c s)) as [n|].
    + specialize (IH (n - 1)). simpl. lia.
    + specialize (IH 0). simpl. lia.
  - specialize (IH k). simpl. lia.
Qed.

(** X18. The substitution only removes: its result is never longer than
    the text it is given, so an entry of the instruction list is at most
    the instruction text, a space, and the distance in parentheses. *)
Theorem instruction_entry_is_bounded :
  forall step,
    String.length (re_sub_tags (step_html_instructions step))
    <= String.length (step_html_instructions step) /\
    String.length (step_entry step)
    <= String.length (step_html_instructions step)
       + String.length (step_distance_text step) + 3.
Proof.
  intros step.
  assert (Happ : forall a b : string,
            String.length (a ++ b)%string = String.length a + String.length b)
    by (induction a; simpl; intros; [reflexivity | now rewrite IHa]).
  pose proof (sub_tags_length (step_html_instructions step) 0) as Hlen.
  split; [exact Hlen|].
  unfold step_entry, re_sub_tags. rewrite !Happ. simpl. lia.
Qed.

(** ** Which exceptions reach the caller *)





(** ** The services *)



(** X21. The directions request reads back as the list it was built from:
    given two or more points, [get_directions_with_waypoints] makes one
    request, to the directions service, whose origin, stops and destination
    are the points of the list in their order, none left out and none
    reordered; this holds whatever the service answers. *)
Theorem compiler_request_keeps_the_order :
  forall W points s r s',
    2 <= length points ->
    get_directions_with_waypoints W points s = (r, s') ->
    exists q,
      s' = log s q /\ is_directions_req q /\ request_points q = points.
Proof.
  intros W points s r s' Hlen H.
  destruct (two_or_more points Hlen) as [o [mid [dst ->]]].
  rewrite get_directions_with_waypoints_request in H. cbv zeta in H.
  exists (DirectionsReq o dst (match mid with [] => None | _ => Some mid end)).
  split.
  - destruct (get_directions W (trace s) o dst
                match mid with [] => None | _ :: _ => Some mid end);
      inversion H; reflexivity.
  - split; [exact I|]. destruct mid; reflexivity.
Qed.

Lemma compiler_request_keeps_the_order_witness :
  exists q,
    snd (get_directions_with_waypoints Sample.round_trip_world
           [Sample.utsc; Sample.cafe_at; (PInt 1, PInt 2); Sample.utsc]
           Sample.start)
    = log Sample.start q /\
    is_directions_req q /\
    request_points q
    = [Sample.utsc; Sample.cafe_at; (PInt 1, PInt 2); Sample.utsc].
Proof.
  apply (compiler_request_keeps_the_order Sample.round_trip_world
           [Sample.utsc; Sample.cafe_at; (PInt 1, PInt 2); Sample.utsc]
           Sample.start
           (fst (get_directions_with_waypoints Sample.round_trip_world
                   [Sample.utsc; Sample.cafe_at; (PInt 1, PInt 2); Sample.utsc]
                   Sample.start))).
  - simpl. lia.
  - apply surjective_pairing.
Defined.

Lemma string_length_append (a b : string) :
  String.length (a ++ b)%string = String.length a + String.length b.
Proof. induction a as [|c a IH]; simpl; [reflexivity | now rewrite IH]. Qed.

Lemma string_append_cancel_l (a x y : string) :
  (a ++ x)%string = (a ++ y)%string -> x = y.
Proof.
  induction a as [|c a IH]; simpl; intros H; [exact H|].
  injection H as H. exact (IH H).
Qed.

Lemma string_append_cancel_r (t : string) :
  forall x y : string, (x ++ t)%string = (y ++ t)%string -> x = y.
Proof.
  induction x as [|a x IH]; intros [|b y] H; simpl in H.
  - reflexivity.
  - apply (f_equal String.length) in H. simpl in H.
    rewrite string_length_append in H. lia.
  - apply (f_equal String.length) in H. simpl in H.
    rewrite string_length_append in H. lia.
  - injection H as Hab H. subst b. f_equal. exact (IH y H).
Qed.

(** A photo URL determines its reference. *)
Lemma photo_url_injective W (r1 r2 : string) :
  photo_url W r1 = photo_url W r2 -> r1 = r2.
Proof.
  unfold photo_url. intros H.
  apply string_append_cancel_l in H.
  exact (string_append_cancel_r _ _ _ H).
Qed.

Lemma NoDup_photo_urls W (refs : list string) :
  NoDup refs -> NoDup (map (photo_url W) refs).
Proof.
  induction 1 as [|r refs Hnotin Hnodup IH]; simpl; constructor; [|exact IH].
  intros Hin. apply in_map_iff in Hin. destruct Hin as [r' [Heq Hin]].
  apply photo_url_injective in Heq. subst r'. contradiction.
Qed.

(** X22. The details of a place: [get_place_details] makes one request and,
    when the service answers, returns a dictionary.  With a status other
    than ["OK"] it has no hours and no photos.  With ["OK"], a missing
    ["opening_hours"] or ["weekday_text"] gives no hours and a missing
    ["photos"] no photos; otherwise there is one URL per photo, in order,
    and photos with different references get different URLs. *)
Theorem place_details_follow_the_reply :
  forall W place s reply,
    get_details W (trace s) place = Ok reply ->
    exists details,
      get_place_details W place s = (Ok details, log s (DetailsReq place)) /\
      (det_status reply <> "OK" ->
       hours details = [] /\ photo_urls details = []) /\
      (det_status reply = "OK" ->
       (opening_hours (det_result reply) = None \/
        opening_hours (det_result reply) = Some None -> hours details = []) /\
       (forall weekday_text,
          opening_hours (det_result reply) = Some (Some weekday_text) ->
          hours details = weekday_text) /\
       (photos (det_result reply) = None -> photo_urls details = []) /\
       (forall refs,
          photos (det_result reply) = Some refs ->
          length (photo_urls details) = length refs /\
          (NoDup refs -> NoDup (photo_urls details)))).
Proof.
  intros W place s reply Hreply.
  unfold get_place_details, bind, send, ret. rewrite Hreply.
  destruct (String.eqb (det_status reply) "OK") eqn:E.
  - eexists. split; [reflexivity|]. split.
    + intros Hne. apply String.eqb_eq in E. contradiction.
    + intros _. simpl. repeat split.
      * intros [H|H]; rewrite H; reflexivity.
      * intros weekday_text H. rewrite H. reflexivity.
      * intros H. rewrite H. reflexivity.
      * rewrite H. apply length_map.
      * rewrite H. apply NoDup_photo_urls.
  - exists no_details. split; [reflexivity|]. split.
    + intros _. split; reflexivity.
    + intros Heq. apply String.eqb_neq in E. contradiction.
Qed.

Lemma place_details_follow_the_reply_witness :
  exists details,
    get_place_details
      (Cases.fixed (Ok JNull) Cases.found Cases.near Cases.routed)
      "pid-1" Sample.start
    = (Ok details, log Sample.start (DetailsReq "pid-1")) /\
    length (photo_urls details) = 2 /\ NoDup (photo_urls details) /\
    hours details = ["Monday: 9-5"].
Proof.
  destruct (place_details_follow_the_reply
              (Cases.fixed (Ok JNull) Cases.found Cases.near Cases.routed)
              "pid-1" Sample.start
              {| det_status := "OK";
                 det_result := {| opening_hours := Some (Some ["Monday: 9-5"]);
                                  photos := Some ["ref1"; "ref2"] |} |}
              eq_refl)
    as [details [Hrun [_ Hok]]].
  destruct (Hok eq_refl) as [_ [Hhours [_ Hphotos]]].
  destruct (Hphotos ["ref1"; "ref2"] eq_refl) as [Hlen Hnodup].
  exists details. split; [exact Hrun|]. split; [exact Hlen|].
  split.
  - apply Hnodup. constructor.
    + simpl. intros [H|[]]. discriminate.
    + constructor; [simpl; tauto | constructor].
  - apply (Hhours ["Monday: 9-5"]). reflexivity.
Defined.

(** ** Resolving the same address twice *)

(** With services whose answers do not depend on earlier requests, what a
    turn of the loop makes of an address intent depends neither on the
    position, nor on the points resolved so far, nor on the state. *)
Lemma address_step_history_free W rt wp v i j c c' s t :
  history_free W ->
  dict_get wp "type" = Some (JStr "address") ->
  dict_get wp "value" = Some v ->
  fst (resolve_step W rt i (JObj wp) c s)
  = fst (resolve_step W rt j (JObj wp) c' t).
Proof.
  intros [Hgeo [Hnb Hdet]] Htype Hval.
  unfold resolve_step, py_getitem, bind, ret. rewrite Htype, Hval.
  change (eq_str (JStr "address") "place_type") with false.
  change (eq_str (JStr "address") "address") with true.
  rewrite !andb_false_r. cbv iota beta.
  unfold geocode_address, bind, send, lift, ret.
  rewrite (Hgeo (trace s)), (Hgeo (trace t)).
  destruct (get_geocode W [] v) as [reply|e]; [|reflexivity].
  destruct (String.eqb (geo_status reply) "OK"); [|reflexivity].
  destruct (py_index (geo_results reply) 0) as [loc|e]; [|reflexivity].
  unfold find_nearest_place, bind, send, lift, ret. simpl trace.
  rewrite (Hnb (trace s ++ [GeocodeReq v])), (Hnb (trace t ++ [GeocodeReq v])).
  destruct (get_nearby W [] (fst loc, snd loc) v) as [nreply|e]; [|reflexivity].
  destruct (String.eqb (nb_status nreply) "OK"
            && Nat.ltb 0 (length (nb_results nreply))).
  - destruct (py_index (nb_results nreply) 0) as [place|e]; [|reflexivity].
    unfold get_place_details, bind, send, ret. simpl trace.
    rewrite (Hdet ((trace s ++ [GeocodeReq v]) ++ [NearbyReq (fst loc, snd loc) v])),
            (Hdet ((trace t ++ [GeocodeReq v]) ++ [NearbyReq (fst loc, snd loc) v])).
    destruct (get_details W [] match place_id place with
                               | Some i0 => i0 | None => "" end) as [dreply|e];
      [|reflexivity].
    destruct (String.eqb (det_status dreply) "OK"); reflexivity.
  - reflexivity.
Qed.

(** X23. Resolving the same address twice gives equal waypoints: with
    lookup services whose answers do not depend on earlier requests, a loop
    over the same ["address"] intent twice, when it runs to its end, has
    created two dictionaries (two references) with the same content and has
    appended the same coordinates twice. *)
Theorem same_address_same_waypoint :
  forall W rt i wp v c d s c' d' s',
    history_free W ->
    dict_get wp "type" = Some (JStr "address") ->
    dict_get wp "value" = Some v ->
    resolve_loop W rt i [JObj wp; JObj wp] c d s = (Ok (inr (c', d')), s') ->
    exists detail,
      store s' = store s ++ [detail; detail] /\
      c' = c ++ [wd_coordinates detail; wd_coordinates detail] /\
      d' = d ++ [length (store s); S (length (store s))].
Proof.
  intros W rt i wp v c d s c' d' s' HW Htype Hval Hloop.
  assert (Hknown : known_kind (JObj wp) = true)
    by (unfold known_kind; rewrite Htype, Hval; reflexivity).
  rewrite resolve_loop_cons in Hloop. unfold bind in Hloop.
  destruct (resolve_step W rt i (JObj wp) c s)
    as [[[out|[[loc det]|]]|e] s1] eqn:E1; try discriminate.
  - pose proof (resolve_step_coords _ _ _ _ _ _ _ _ _ E1) as Hcoord.
    pose proof (resolve_step_state _ _ _ _ _ _ _ _ E1) as [Hst1 _].
    unfold resolve_next, bind, alloc in Hloop.
    rewrite resolve_loop_cons in Hloop. unfold bind in Hloop.
    match type of Hloop with
    | context [resolve_step W rt (S i) (JObj wp) ?c2 ?s2] =>
        pose proof (address_step_history_free W rt wp v (S i) i c2 c s2 s
                      HW Htype Hval) as Hsame;
        destruct (resolve_step W rt (S i) (JObj wp) c2 s2)
          as [[[out2|[[loc2 det2]|]]|e2] s3] eqn:E2; try discriminate
    end.
    + rewrite E1 in Hsame. simpl in Hsame. inversion Hsame; subst loc2 det2.
      pose proof (resolve_step_state _ _ _ _ _ _ _ _ E2) as [Hst2 _].
      simpl in Hst2.
      unfold resolve_next, bind, alloc in Hloop. simpl in Hloop.
      inversion Hloop; subst. exists det. simpl.
      rewrite Hst2, Hst1, length_app. simpl.
      rewrite <- !app_assoc. simpl. rewrite Nat.add_1_r.
      repeat split; reflexivity.
    + exfalso. exact (resolve_step_known W rt (S i) (JObj wp) _ _ _ Hknown E2).
  - exfalso. exact (resolve_step_known W rt i (JObj wp) c s _ Hknown E1).
Qed.

Lemma same_address_same_waypoint_witness :
  exists detail,
    store (snd (resolve_loop
                  (Cases.fixed (Ok JNull) Cases.found Cases.near Cases.routed)
                  (JBool false) 0
                  [Sample.intent "address" "UTSC"; Sample.intent "address" "UTSC"]
                  [] [] Sample.start))
    = store Sample.start ++ [detail; detail] /\
    [Sample.utsc; Sample.utsc]
    = [] ++ [wd_coordinates detail; wd_coordinates detail] /\
    [0; 1] = [] ++ [length (store Sample.start); S (length (store Sample.start))].
Proof.
  apply (same_address_same_waypoint
           (Cases.fixed (Ok JNull) Cases.found Cases.near Cases.routed)
           (JBool false) 0
           [("type", JStr "address"); ("value", JStr "UTSC")] (JStr "UTSC")
           [] [] Sample.start [Sample.utsc; Sample.utsc] [0; 1]
           (snd (resolve_loop
                   (Cases.fixed (Ok JNull) Cases.found Cases.near Cases.routed)
                   (JBool false) 0
                   [Sample.intent "address" "UTSC"; Sample.intent "address" "UTSC"]
                   [] [] Sample.start))).
  - repeat split; reflexivity.
  - reflexivity.
  - reflexivity.
  - reflexivity.
Defined.
